(** * Typora image uploader: a shallow embedding of [main.py]

    The script compresses images to WebP, uploads them to OneDrive through the
    Graph API and prints the public URL of every uploaded image.  This file
    embeds the three parts of [main.py]

    - [compress_image] (lines 16-56),
    - the class [Drive] (lines 59-116),
    - the argument loop of [__main__] (lines 119-155),

    as functions over an explicit state: the file system, the lines printed on
    standard output, the log of HTTP requests, the clock and the in-memory
    configuration of the [Drive] object.  Python exceptions are results of
    their own, so that a run either returns or raises, and in both cases the
    state reached is known.

    What the script takes from libraries (the PIL decoder and WebP encoder,
    MD5, the YAML printer and parser, the remote servers, the clock) is a
    variable of the section [Program].  The string methods and the functions
    of [os.path] are written out; paths follow [posixpath].

    The model has these bounds.  A file system is a map from paths to bytes:
    a path is a key, every directory that is written to exists, and there
    are no links.  An image is decoded when it is opened.  The values of the
    configuration and of the JSON answers are strings, integers and [None].
    [str.lower] acts on the letters A to Z.

    The module [Sample] is a small concrete world, and [SampleRuns] runs the
    program and the theorems in it. *)

From Stdlib Require Import ZArith Ascii DecimalString.
From stdpp Require Import gmap strings list fin_maps.

Local Open Scope Z_scope.

(** ** Python strings *)

Module PyStr.

(** [s.startswith(prefix)] *)
Definition startswith (s pre : string) : bool := String.prefix pre s.

(** [s.endswith(suffix)] *)
Definition endswith (s suf : string) : bool :=
  let n := String.length s in
  let k := String.length suf in
  if (k <=? n)%nat then String.eqb (String.substring (n - k) k s) suf else false.

(** [needle in hay]: [needle] occurs at some position of [hay]. *)
Fixpoint contains (needle hay : string) : bool :=
  String.prefix needle hay ||
  match hay with
  | EmptyString => false
  | String _ hay' => contains needle hay'
  end.

(** [s[n:]] for [0 <= n]. *)
Fixpoint drop (n : nat) (s : string) : string :=
  match n, s with
  | O, _ => s
  | S _, EmptyString => EmptyString
  | S n', String _ s' => drop n' s'
  end.

(** [s[:n]] for [0 <= n]. *)
Fixpoint take (n : nat) (s : string) : string :=
  match n, s with
  | O, _ => EmptyString
  | S _, EmptyString => EmptyString
  | S n', String c s' => String c (take n' s')
  end.

(** [s.rfind(c)] for a one-character [c]: the index of the last occurrence,
    [-1] when there is none. *)
Fixpoint rfind (c : ascii) (s : string) : Z :=
  match s with
  | EmptyString => -1
  | String a s' =>
      let r := rfind c s' in
      if 0 <=? r then r + 1
      else if Ascii.eqb a c then 0 else -1
  end.

(** The scan of [s.replace(old, new)] for a non-empty [old]: left to right,
    occurrences do not overlap.  [skip] counts the characters of a matched
    occurrence that are still to be passed over. *)
Fixpoint replace_from (old new : string) (skip : nat) (s : string) : string :=
  match s with
  | EmptyString => EmptyString
  | String c s' =>
      match skip with
      | S k => replace_from old new k s'
      | O =>
          if String.prefix old s
          then new +:+ replace_from old new (String.length old - 1) s'
          else String c (replace_from old new 0 s')
      end
  end.

(** With an empty [old], Python puts [new] before every character and at
    the end. *)
Fixpoint intersperse (new s : string) : string :=
  match s with
  | EmptyString => new
  | String c s' => new +:+ String c (intersperse new s')
  end.

(** [s.replace(old, new)] *)
Definition replace (s old new : string) : string :=
  match old with
  | EmptyString => intersperse new s
  | String _ _ => replace_from old new 0 s
  end.

(** [c.lower()] on an ASCII character: [A-Z] go to [a-z], the rest stays. *)
Definition lower_ascii (c : ascii) : ascii :=
  let n := nat_of_ascii c in
  if ((65 <=? n) && (n <=? 90))%nat then ascii_of_nat (n + 32) else c.

(** [s.lower()], on ASCII text. *)
Fixpoint lower (s : string) : string :=
  match s with
  | EmptyString => EmptyString
  | String c s' => String (lower_ascii c) (lower s')
  end.

(** [str(z)] for an integer. *)
Definition str_of_int (z : Z) : string := NilZero.string_of_int (Z.to_int z).

End PyStr.

(** ** [posixpath] *)

Module PosixPath.
Import PyStr.

(** [os.path.basename(p)]: [i = p.rfind('/') + 1; return p[i:]] *)
Definition basename (p : string) : string :=
  let i := rfind "/" p + 1 in
  drop (Z.to_nat i) p.

(** The loop of [genericpath._splitext] that skips leading dots: [true] when
    every character of [p[filenameIndex:dotIndex]] is a dot. *)
Fixpoint only_dots (s : string) : bool :=
  match s with
  | EmptyString => true
  | String c s' => Ascii.eqb c "." && only_dots s'
  end.

(** [os.path.splitext(p)] *)
Definition splitext (p : string) : string * string :=
  let sepIndex := rfind "/" p in
  let dotIndex := rfind "." p in
  if sepIndex <? dotIndex then
    let filenameIndex := sepIndex + 1 in
    if only_dots (take (Z.to_nat (dotIndex - filenameIndex))
                       (drop (Z.to_nat filenameIndex) p))
    then (p, EmptyString)
    else (take (Z.to_nat dotIndex) p, drop (Z.to_nat dotIndex) p)
  else (p, EmptyString).

(** [os.path.join(a, b)] *)
Definition join (a b : string) : string :=
  if startswith b "/" then b
  else if String.eqb a "" || endswith a "/" then a +:+ b
  else a +:+ "/" +:+ b.

End PosixPath.

(** ** Values, requests and the state of a run *)

(** The Python values that the configuration file and the JSON answers of
    the servers hold: strings, integers and [None]. *)
Inductive pyval : Type :=
| PStr (s : string)
| PInt (z : Z)
| PNone.

(** A [requests] call, as the script issues it. *)
Inductive request : Type :=
| Get (url : string)
| Post (url : string) (data : list (string * pyval))
| Put (url : string) (headers : list (string * string)) (body : list Byte.byte).

(** The answer to a request: [r.content] and [r.json()], which is [None] when
    the body is not a JSON object. *)
Record response : Type := Response {
  content : list Byte.byte;
  json : option (gmap string pyval)
}.

(** The exceptions a run can end with. *)
Inductive exn : Type :=
| FileNotFoundError (path : string)
| SameFileError (src dst : string)
| UnidentifiedImageError (path : string)
| EncoderError
| KeyError (key : string)
| TypeError
| AttributeError
| ConnectionError
| JSONDecodeError
| YAMLError.

(** What a run reads and changes.  [fs] maps the path of every regular file
    to its bytes (paths are keys: two spellings of one file are two keys, and
    the directories written to exist); [stdout] holds the printed lines,
    oldest first; [net_log] the requests sent, oldest first; [clock_reads]
    counts the calls of [time.time()]; [config] is [self.config] of the one
    [Drive] object. *)
Record state : Type := State {
  fs : gmap string (list Byte.byte);
  stdout : list string;
  net_log : list request;
  clock_reads : nat;
  config : gmap string pyval
}.

Definition set_fs (f : gmap string (list Byte.byte)) (st : state) : state :=
  State f (stdout st) (net_log st) (clock_reads st) (config st).

Definition set_config (c : gmap string pyval) (st : state) : state :=
  State (fs st) (stdout st) (net_log st) (clock_reads st) c.

(** A call either returns a value or raises; both leave a state behind. *)
Inductive result (A : Type) : Type :=
| Returns (a : A) (st : state)
| Raises (e : exn) (st : state).

Arguments Returns {A} a st.
Arguments Raises {A} e st.

Definition M (A : Type) : Type := state -> result A.

Definition ret {A} (a : A) : M A := fun st => Returns a st.

Definition raise {A} (e : exn) : M A := fun st => Raises e st.

Definition bind {A B} (c : M A) (k : A -> M B) : M B :=
  fun st =>
    match c st with
    | Returns a st' => k a st'
    | Raises e st' => Raises e st'
    end.

Notation "'let*' x ':=' c 'in' k" := (bind c (fun x => k))
  (at level 10, x name, c at level 100, k at level 200).

(** How the [for] loop of [__main__] goes on after one argument. *)
Inductive flow : Type := Continue | Break.

(** ** The operating system and the Python library, on [state] *)

Module Os.
Import PyStr.

(** [open(path, 'rb').read()] *)
Definition read_file (path : string) : M (list Byte.byte) :=
  fun st =>
    match fs st !! path with
    | Some b => Returns b st
    | None => Raises (FileNotFoundError path) st
    end.

(** Opening [path] for writing and writing [b]: the file holds [b]. *)
Definition write_file (path : string) (b : list Byte.byte) : M unit :=
  fun st => Returns tt (set_fs (<[path := b]> (fs st)) st).

(** [os.path.getsize(path)] *)
Definition getsize (path : string) : M Z :=
  let* b := read_file path in ret (Z.of_nat (length b)).

(** [os.remove(path)] *)
Definition remove (path : string) : M unit :=
  fun st =>
    match fs st !! path with
    | Some _ => Returns tt (set_fs (delete path (fs st)) st)
    | None => Raises (FileNotFoundError path) st
    end.

(** [os.rename(src, dst)]: [dst] is replaced when it exists. *)
Definition rename (src dst : string) : M unit :=
  fun st =>
    match fs st !! src with
    | Some b => Returns tt (set_fs (<[dst := b]> (delete src (fs st))) st)
    | None => Raises (FileNotFoundError src) st
    end.

(** [shutil.copy(src, dst)] for a [dst] that is not a directory:
    [copyfile] refuses to copy a file onto itself. *)
Definition shutil_copy (src dst : string) : M unit :=
  fun st =>
    match fs st !! src with
    | Some b =>
        if String.eqb src dst then Raises (SameFileError src dst) st
        else Returns tt (set_fs (<[dst := b]> (fs st)) st)
    | None => Raises (FileNotFoundError src) st
    end.

(** [print(line)] *)
Definition print (line : string) : M unit :=
  fun st =>
    Returns tt (State (fs st) (stdout st ++ [line]) (net_log st)
                      (clock_reads st) (config st)).

(** [d[key]] *)
Definition getitem (d : gmap string pyval) (key : string) : M pyval :=
  match d !! key with
  | Some v => ret v
  | None => raise (KeyError key)
  end.

(** [self.config[key] = v] *)
Definition config_setitem (key : string) (v : pyval) : M unit :=
  fun st => Returns tt (set_config (<[key := v]> (config st)) st).

(** [self.config] *)
Definition get_config : M (gmap string pyval) :=
  fun st => Returns (config st) st.

(** [a < b] *)
Definition py_lt (a b : pyval) : M bool :=
  match a, b with
  | PInt x, PInt y => ret (x <? y)
  | PStr x, PStr y => ret (String.ltb x y)
  | _, _ => raise TypeError
  end.

(** [a + b] *)
Definition py_add (a b : pyval) : M pyval :=
  match a, b with
  | PInt x, PInt y => ret (PInt (x + y))
  | PStr x, PStr y => ret (PStr (x +:+ y))
  | _, _ => raise TypeError
  end.

(** [f'{v}'] *)
Definition py_format (v : pyval) : string :=
  match v with
  | PStr s => s
  | PInt z => str_of_int z
  | PNone => "None"
  end.

(** [v.lower()] *)
Definition py_lower (v : pyval) : M string :=
  match v with
  | PStr s => ret (lower s)
  | _ => raise AttributeError
  end.

(** [r.json()] *)
Definition response_json (r : response) : M (gmap string pyval) :=
  match json r with
  | Some d => ret d
  | None => raise JSONDecodeError
  end.

End Os.

(** ** A small world to run the program in *)

Module Sample.
Import PyStr.

(** An image is its bytes; an empty file is no image, and a file that
    starts with the letter G is a GIF. *)
Definition decode (b : list Byte.byte) : option (list Byte.byte) :=
  match b with
  | [] => None
  | _ :: _ => Some b
  end.

Definition image_format (image : list Byte.byte) : string :=
  match image with
  | Byte.x47 :: _ => "GIF"
  | _ => "PNG"
  end.

(** The lossless encoding keeps every byte and adds one; the lossy one
    keeps three bytes and adds one for every 40 points of quality. *)
Definition encode_webp_lossless (image : list Byte.byte)
    : option (list Byte.byte) :=
  Some (Byte.x4c :: image).

Definition encode_webp_lossy (quality : Z) (image : list Byte.byte)
    : option (list Byte.byte) :=
  Some (repeat Byte.x59 (Z.to_nat (quality / 40)) ++ firstn 3 image).

(** The MD5 digests of the URLs used below. *)
Definition md5_hexdigest (s : string) : string :=
  if String.eqb s "https://example.com/a.png"
  then "8c11d92f07c76baf29e49afd2301deb2"
  else if String.eqb s "https://example.com/anim.gif"
  then "24d3181a33fd29a54865e9c1dff1974a"
  else "d41d8cd98f00b204e9800998ecf8427e".

Definition yaml_line (entry : string * pyval) : string :=
  fst entry +:+ ": " +:+ Os.py_format (snd entry) +:+ String "010" "".

Definition yaml_safe_dump (cfg : gmap string pyval) : list Byte.byte :=
  String.list_byte_of_string (String.concat "" (yaml_line <$> map_to_list cfg)).

Definition record (expires_at : Z) : gmap string pyval :=
  <["client_id" := PStr "app"]>
    (<["client_secret" := PStr "secret"]>
       (<["refresh_token" := PStr "old-refresh"]>
          (<["access_token" := PStr "old-access"]>
             (<["expires_at" := PInt expires_at]> ∅)))).

Definition yaml_safe_load (b : list Byte.byte) : option (gmap string pyval) :=
  match b with
  | [] => None
  | _ :: _ => Some (record 0)
  end.

(** The clock starts at 1700000000 and is one second on at each reading. *)
Definition clock (reads : nat) : Z := 1700000000 + Z.of_nat reads.

Definition png5 : list Byte.byte := [Byte.x89; Byte.x50; Byte.x4e; Byte.x47; Byte.x0d].
Definition png4 : list Byte.byte := [Byte.x89; Byte.x50; Byte.x4e; Byte.x47].
Definition png2 : list Byte.byte := [Byte.x89; Byte.x50].
Definition gif4 : list Byte.byte := [Byte.x47; Byte.x49; Byte.x46; Byte.x38].

Definition token_answer : gmap string pyval :=
  <["access_token" := PStr "new-access"]>
    (<["refresh_token" := PStr "new-refresh"]>
       (<["expires_in" := PInt 3600]> ∅)).

Definition upload_answer : gmap string pyval :=
  <["id" := PStr "01ABCDEF!xyz"]> ∅.

(** The servers: any URL with [.gif] in it is a GIF, any other an image of
    five bytes; the token endpoint and the drive always answer. *)
Definition remote (log : list request) (req : request) : option response :=
  match req with
  | Get url => Some (Response (if contains ".gif" url then gif4 else png5) None)
  | Post _ _ => Some (Response [] (Some token_answer))
  | Put _ _ _ => Some (Response [] (Some upload_answer))
  end.

Definition article_date (file : string) : option string := Some "20240101".

Definition files : gmap string (list Byte.byte) :=
  <["photo.png" := png5]>
    (<["icon.png" := png2]>
       (<["tie.png" := png4]>
          (<["anim.gif" := gif4]>
             (<["temp/loop.gif" := gif4]>
                (<["config.yaml" := yaml_safe_dump (record 0)]> ∅))))).

(** The state at the start, with the given [expires_at] in the record. *)
Definition world (expires_at : Z) : state :=
  State files [] [] 0 (record expires_at).

End Sample.

(** ** Servers that fail *)

Module Faults.

(** No connection at all. *)
Definition remote_down (log : list request) (req : request) : option response :=
  None.

(** A token endpoint that rejects the refresh with an error document. *)
Definition error_answer : gmap string pyval :=
  <["error" := PStr "invalid_grant"]> ∅.

Definition remote_rejecting (log : list request) (req : request)
    : option response :=
  match req with
  | Post _ _ => Some (Response [] (Some error_answer))
  | _ => Sample.remote log req
  end.

(** A token endpoint whose answer has no [refresh_token]. *)
Definition short_answer : gmap string pyval :=
  <["access_token" := PStr "new-access"]> (<["expires_in" := PInt 3600]> ∅).

Definition remote_short (log : list request) (req : request) : option response :=
  match req with
  | Post _ _ => Some (Response [] (Some short_answer))
  | _ => Sample.remote log req
  end.

(** A drive that answers every upload with an error document. *)
Definition remote_full (log : list request) (req : request) : option response :=
  match req with
  | Put _ _ _ => Some (Response [] (Some error_answer))
  | _ => Sample.remote log req
  end.


(** A record whose expiry was written as text. *)
Definition record_with_text_expiry : gmap string pyval :=
  <["expires_at" := PStr "1700000000"]> (Sample.record 0).

End Faults.

(** ** The program *)

Section Program.
Import PyStr PosixPath Os.

(** *** What the libraries and the outside world provide *)

(** PIL: a decoded image, [Image.open] on the bytes of a file ([None]: the
    bytes are no image PIL knows), [image.format], and the two WebP encodings
    of [image.save] ([None]: the encoder raises). *)
Variable Image : Type.
Variable decode : list Byte.byte -> option Image.
Variable image_format : Image -> string.
Variable encode_webp_lossless : Image -> option (list Byte.byte).
Variable encode_webp_lossy : Z -> Image -> option (list Byte.byte).

(** [hashlib.md5(s.encode()).hexdigest()] *)
Variable md5_hexdigest : string -> string.

(** [yaml.safe_load] of the bytes of a file ([None]: no YAML mapping) and
    [yaml.safe_dump]. *)
Variable yaml_safe_load : list Byte.byte -> option (gmap string pyval).
Variable yaml_safe_dump : gmap string pyval -> list Byte.byte.

(** [int(time.time())] at the n-th reading of the clock. *)
Variable clock : nat -> Z.

(** The servers: the answer to a request, given the requests sent before it
    ([None]: the connection fails). *)
Variable remote : list request -> request -> option response.

(** [time.strftime("%Y%m%d", time.localtime(os.path.getctime(file)))]
    ([None]: there is no such file). *)
Variable article_date : string -> option string.

(** [int(time.time())] *)
Definition time_time : M Z :=
  fun st =>
    Returns (clock (clock_reads st))
            (State (fs st) (stdout st) (net_log st) (S (clock_reads st))
                   (config st)).

(** A call of [requests]: the request is sent, then answered. *)
Definition http (req : request) : M response :=
  fun st =>
    let st' := State (fs st) (stdout st) (net_log st ++ [req])
                     (clock_reads st) (config st) in
    match remote (net_log st) req with
    | Some r => Returns r st'
    | None => Raises ConnectionError st'
    end.

(** [Image.open(path)] *)
Definition Image_open (path : string) : M Image :=
  let* b := read_file path in
  match decode b with
  | Some image => ret image
  | None => raise (UnidentifiedImageError path)
  end.

(** [image.save(path, 'webp', lossless=True, save_all=True)] *)
Definition save_lossless (image : Image) (path : string) : M unit :=
  match encode_webp_lossless image with
  | Some b => write_file path b
  | None => raise EncoderError
  end.

(** [image.save(path, 'webp', quality=quality, save_all=True)] *)
Definition save_lossy (image : Image) (path : string) (quality : Z) : M unit :=
  match encode_webp_lossy quality image with
  | Some b => write_file path b
  | None => raise EncoderError
  end.

(** *** [compress_image] (main.py, lines 16-56) *)

Definition compress_image (input_path output_dir : string)
    (lossy_quality : Z) : M string :=
  let filename := basename input_path in
  let* image := Image_open input_path in
  if String.eqb (image_format image) "GIF" then
    let output_path := join output_dir filename in
    let* _ := shutil_copy input_path output_path in
    ret output_path
  else
    let filename := fst (splitext filename) +:+ ".webp" in
    let output_path := join output_dir filename in
    let lossless_output_path := replace output_path ".webp" "_lossless.webp" in
    let* _ := save_lossless image lossless_output_path in
    let* lossless_size := getsize lossless_output_path in
    let* _ := save_lossy image output_path lossy_quality in
    let* lossy_size := getsize output_path in
    let* _ :=
      if lossless_size <? lossy_size then
        let* _ := remove output_path in
        rename lossless_output_path output_path
      else
        remove lossless_output_path in
    ret output_path.

(** *** The class [Drive] (main.py, lines 59-116) *)

Definition GRAPH_URL : string := "https://graph.microsoft.com/v1.0".

Definition TOKEN_URL : string :=
  "https://login.microsoftonline.com/common/oauth2/v2.0/token".

(** [Drive.__init__] *)
Definition Drive_init : M unit :=
  let* b := read_file "config.yaml" in
  match yaml_safe_load b with
  | Some d => fun st => Returns tt (set_config d st)
  | None => raise YAMLError
  end.

(** [Drive.refresh_access_token] *)
Definition refresh_access_token : M unit :=
  let* cfg := get_config in
  let* client_id := getitem cfg "client_id" in
  let* client_secret := getitem cfg "client_secret" in
  let* refresh_token := getitem cfg "refresh_token" in
  let data :=
    [("client_id", client_id);
     ("redirect_uri", PStr "http://localhost:5000/callback");
     ("client_secret", client_secret);
     ("refresh_token", refresh_token);
     ("grant_type", PStr "refresh_token")] in
  let* r := http (Post TOKEN_URL data) in
  let* j := response_json r in
  let* access_token := getitem j "access_token" in
  let* _ := config_setitem "access_token" access_token in
  let* j := response_json r in
  let* refresh_token := getitem j "refresh_token" in
  let* _ := config_setitem "refresh_token" refresh_token in
  let* now := time_time in
  let* j := response_json r in
  let* expires_in := getitem j "expires_in" in
  let* expires_at := py_add (PInt now) expires_in in
  let* _ := config_setitem "expires_at" expires_at in
  let* cfg := get_config in
  write_file "config.yaml" (yaml_safe_dump cfg).

(** [Drive.get_access_token] *)
Definition get_access_token : M pyval :=
  let* cfg := get_config in
  let* expires_at := getitem cfg "expires_at" in
  let* now := time_time in
  let* expired := py_lt expires_at (PInt (now - 60)) in
  let* _ := if expired then refresh_access_token else ret tt in
  let* cfg := get_config in
  getitem cfg "access_token".

(** [Drive.generate_header] *)
Definition generate_header : M (list (string * string)) :=
  let* token := get_access_token in
  ret [("Authorization", "Bearer " +:+ py_format token);
       ("User-Agent", "Typora Image Uploader(lrhtony0@gmail.com)")].

(** [Drive.upload_by_path] *)
Definition upload_by_path (drive_file_path file_path : string)
    : M (gmap string pyval) :=
  let url :=
    GRAPH_URL +:+ "/me/drive/items/root:/" +:+ drive_file_path +:+ ":/content" in
  let* headers := generate_header in
  let* data := read_file file_path in
  let* r := http (Put url headers data) in
  response_json r.

(** *** [__main__] (main.py, lines 119-155) *)

Definition img_url_base : string := "https://img.0a0.moe/od/".

(** The directory of the drive the images go to (lines 127-133). *)
Definition host_img_base_dir (file : option string) : M string :=
  match file with
  | Some f =>
      if String.eqb f "" then ret "host/blog/post/temp/"
      else
        match article_date f with
        | Some ymd =>
            let article_title := replace (basename f) ".md" "" in
            ret ("host/blog/post/" +:+ ymd +:+ "-" +:+ article_title +:+ "/")
        | None => raise (FileNotFoundError f)
        end
  | None => ret "host/blog/post/temp/"
  end.

(** The test of line 141. *)
Definition already_hosted (img_path : string) : bool :=
  contains "img.jks.moe" img_path || contains "img.0a0.moe" img_path.

(** The body of the [for] loop (lines 138-155) for one argument. *)
Definition loop_body (base_dir : string) (img_path : string) : M flow :=
  let* local :=
    if startswith img_path "http" then
      if already_hosted img_path then
        let* _ := print img_path in
        ret None
      else
        let img_url := img_path in
        let img_name := basename (md5_hexdigest img_url) in
        let img_path := "temp/" +:+ img_name in
        let* _ := write_file img_path [] in
        let* r := http (Get img_url) in
        let* _ := write_file img_path (content r) in
        ret (Some img_path)
    else ret (Some img_path) in
  match local with
  | None => ret Break
  | Some img_path =>
      let* compressed_img_path := compress_image img_path "temp" 80 in
      let img_name := basename compressed_img_path in
      let* upload_info :=
        upload_by_path (base_dir +:+ img_name) compressed_img_path in
      let* file_id := getitem upload_info "id" in
      let* lowered := py_lower file_id in
      let img_url := img_url_base +:+ lowered in
      let* _ := print img_url in
      let* _ := remove compressed_img_path in
      ret Continue
  end.

(** [for img_path in args: ...]: [Break] when the loop was left by [break],
    [Continue] when it ran through all of [args]. *)
Fixpoint for_each (base_dir : string) (args : list string) : M flow :=
  match args with
  | [] => ret Continue
  | img_path :: rest =>
      let* f := loop_body base_dir img_path in
      match f with
      | Break => ret Break
      | Continue => for_each base_dir rest
      end
  end.

(** The script, from the parsed arguments on. *)
Definition main (file : option string) (args : list string) : M unit :=
  let* base_dir := host_img_base_dir file in
  let* _ := Drive_init in
  let* _ := for_each base_dir args in
  ret tt.

(** ** The vocabulary of the statements *)

(** The files left by the two encodings and the choice between them
    (lines 41-53), on the file system [f]. *)
Definition webp_files (f : gmap string (list Byte.byte))
    (output_path lossless_output_path : string)
    (lossless lossy : list Byte.byte) : gmap string (list Byte.byte) :=
  let written := <[output_path := lossy]> (<[lossless_output_path := lossless]> f) in
  if Z.of_nat (length lossless) <? Z.of_nat (length lossy)
  then <[output_path := lossless]>
         (delete lossless_output_path (delete output_path written))
  else delete lossless_output_path written.

(** Two runs have the same outcome: both raise the same exception, or both
    return the same path and the file at that path holds the same bytes. *)
Definition same_outcome (r1 r2 : result string) : Prop :=
  match r1, r2 with
  | Returns p1 st1, Returns p2 st2 =>
      p1 = p2 /\ is_Some (fs st1 !! p1) /\ fs st1 !! p1 = fs st2 !! p2
  | Raises e1 _, Raises e2 _ => e1 = e2
  | _, _ => False
  end.

(** The form that [refresh_access_token] posts. *)
Definition refresh_form (cfg : gmap string pyval) : option (list (string * pyval)) :=
  match cfg !! "client_id", cfg !! "client_secret", cfg !! "refresh_token" with
  | Some client_id, Some client_secret, Some refresh_token =>
      Some [("client_id", client_id);
            ("redirect_uri", PStr "http://localhost:5000/callback");
            ("client_secret", client_secret);
            ("refresh_token", refresh_token);
            ("grant_type", PStr "refresh_token")]
  | _, _, _ => None
  end.

(** The configuration after a refresh answered with [access_token],
    [refresh_token] and [expires_in], read at time [now]. *)
Definition refreshed_config (cfg : gmap string pyval)
    (access_token refresh_token : pyval) (now expires_in : Z)
    : gmap string pyval :=
  <["expires_at" := PInt (now + expires_in)]>
    (<["refresh_token" := refresh_token]>
       (<["access_token" := access_token]> cfg)).

(** The configuration file holds the record that is in memory. *)
Definition in_sync (st : state) : Prop :=
  fs st !! "config.yaml" = Some (yaml_safe_dump (config st)).

(** The request that [upload_by_path] sends with the token [token]. *)
Definition upload_request (drive_file_path : string) (token : pyval)
    (body : list Byte.byte) : request :=
  Put (GRAPH_URL +:+ "/me/drive/items/root:/" +:+ drive_file_path +:+ ":/content")
      [("Authorization", "Bearer " +:+ py_format token);
       ("User-Agent", "Typora Image Uploader(lrhtony0@gmail.com)")]
      body.

(** The number of calls of the token endpoint in a log of requests. *)
Definition is_refresh (req : request) : bool :=
  match req with
  | Post url _ => String.eqb url TOKEN_URL
  | _ => false
  end.

Definition refresh_calls (log : list request) : nat :=
  length (List.filter is_refresh log).

(** The state after [print(line)]. *)
Definition printed (line : string) (st : state) : state :=
  State (fs st) (stdout st ++ [line]) (net_log st) (clock_reads st) (config st).

(** The first half of the loop body (lines 139-148): the local path of the
    image, [None] when the loop is to be left. *)
Definition acquire (img_path : string) : M (option string) :=
  if startswith img_path "http" then
    if already_hosted img_path then
      let* _ := print img_path in
      ret None
    else
      let img_url := img_path in
      let img_name := basename (md5_hexdigest img_url) in
      let img_path := "temp/" +:+ img_name in
      let* _ := write_file img_path [] in
      let* r := http (Get img_url) in
      let* _ := write_file img_path (content r) in
      ret (Some img_path)
  else ret (Some img_path).

(** The second half (lines 149-155). *)
Definition process (base_dir img_path : string) : M flow :=
  let* compressed_img_path := compress_image img_path "temp" 80 in
  let img_name := basename compressed_img_path in
  let* upload_info :=
    upload_by_path (base_dir +:+ img_name) compressed_img_path in
  let* file_id := getitem upload_info "id" in
  let* lowered := py_lower file_id in
  let img_url := img_url_base +:+ lowered in
  let* _ := print img_url in
  let* _ := remove compressed_img_path in
  ret Continue.

(** The state after the download of [r] to [path]. *)
Definition downloaded (img_url path : string) (r : response) (st : state)
    : state :=
  State (<[path := content r]> (<[path := []]> (fs st))) (stdout st)
        (net_log st ++ [Get img_url]) (clock_reads st) (config st).

(** The characters of a hexadecimal digest. *)
Definition is_hexdigit (c : ascii) : bool :=
  let n := nat_of_ascii c in
  ((48 <=? n) && (n <=? 57) || (97 <=? n) && (n <=? 102))%nat.

Fixpoint hexdigest (s : string) : bool :=
  match s with
  | EmptyString => true
  | String c s' => is_hexdigit c && hexdigest s'
  end.

(** The state after [compress_image] has run on the download. *)
Definition compressed (img_url : string) (r : response)
    (lossless lossy : list Byte.byte) (st : state) : state :=
  let local := "temp/" +:+ md5_hexdigest img_url in
  let output_path := "temp/" +:+ md5_hexdigest img_url +:+ ".webp" in
  let st0 := downloaded img_url local r st in
  set_fs (webp_files (fs st0) output_path
            (replace output_path ".webp" "_lossless.webp") lossless lossy) st0.

(** *** Two rules as the specification words them *)

(** The refresh rule with the threshold included: a record whose
    [expires_at] is [now - 60] or below makes the accessor send one
    refresh. *)
Definition refreshes_from_threshold (st : state) : Prop :=
  forall expires_at,
    config st !! "expires_at" = Some (PInt expires_at) ->
    expires_at <= clock (clock_reads st) - 60 ->
    exists token st',
      get_access_token st = Returns token st'
      /\ refresh_calls (net_log st') = S (refresh_calls (net_log st)).

(** A pass of the loop on a URL after which neither the download nor the
    compressed file is left. *)
Definition pass_removes_both (base_dir img_url : string) (st : state) : Prop :=
  exists st',
    loop_body base_dir img_url st = Returns Continue st'
    /\ fs st' !! ("temp/" +:+ md5_hexdigest img_url) = None
    /\ fs st' !! ("temp/" +:+ md5_hexdigest img_url +:+ ".webp") = None.

(** *** Outcomes and counts *)

(** The state a call leaves, whether it returns or raises. *)
Definition state_of {A} (r : result A) : state :=
  match r with
  | Returns _ st => st
  | Raises _ st => st
  end.

(** The number of uploads in a log of requests. *)
Definition is_upload (req : request) : bool :=
  match req with
  | Put _ _ _ => true
  | _ => false
  end.

Definition upload_calls (log : list request) : nat :=
  length (List.filter is_upload log).

(** ** The string and path functions on examples *)

Example basename_plain : basename "temp/a.png" = "a.png".
Proof. reflexivity. Qed.

Example basename_dir : basename "a/b/" = "".
Proof. reflexivity. Qed.

Example basename_none : basename "photo.png" = "photo.png".
Proof. reflexivity. Qed.

Example splitext_plain : splitext "photo.png" = ("photo", ".png").
Proof. reflexivity. Qed.

Example splitext_two : splitext "a.tar.gz" = ("a.tar", ".gz").
Proof. reflexivity. Qed.

Example splitext_hidden : splitext ".bashrc" = (".bashrc", "").
Proof. reflexivity. Qed.

Example splitext_none : splitext "d41d8cd9" = ("d41d8cd9", "").
Proof. reflexivity. Qed.

Example splitext_dir_dot : splitext "a.b/c" = ("a.b/c", "").
Proof. reflexivity. Qed.

Example join_plain : join "temp" "a.webp" = "temp/a.webp".
Proof. reflexivity. Qed.

Example join_slash : join "temp/" "a.webp" = "temp/a.webp".
Proof. reflexivity. Qed.

Example join_empty : join "" "a.webp" = "a.webp".
Proof. reflexivity. Qed.

Example replace_webp :
  replace "temp/a.webp" ".webp" "_lossless.webp" = "temp/a_lossless.webp".
Proof. reflexivity. Qed.

Example replace_all :
  replace "x.webp/a.webp" ".webp" "_lossless.webp"
  = "x_lossless.webp/a_lossless.webp".
Proof. reflexivity. Qed.

Example replace_md : replace "notes.md" ".md" "" = "notes".
Proof. reflexivity. Qed.

Example replace_overlap : replace "aaa" "aa" "b" = "ba".
Proof. reflexivity. Qed.

Example replace_empty_old : replace "ab" "" "-" = "-a-b-".
Proof. reflexivity. Qed.

Example lower_id : lower "01ABCdef!XYZ" = "01abcdef!xyz".
Proof. reflexivity. Qed.

Example contains_mid : contains "img.jks.moe" "https://img.jks.moe/x.png" = true.
Proof. reflexivity. Qed.

Example contains_not : contains "img.jks.moe" "https://img.jks.mo/e" = false.
Proof. reflexivity. Qed.

Example str_of_int_neg : str_of_int (-42) = "-42".
Proof. reflexivity. Qed.

Example str_of_int_zero : str_of_int 0 = "0".
Proof. reflexivity. Qed.

(** ** Facts about strings and paths *)

Lemma append_nil (b : string) : "" +:+ b = b.
Proof. reflexivity. Qed.

Lemma append_cons (c : ascii) (a b : string) :
  String c a +:+ b = String c (a +:+ b).
Proof. reflexivity. Qed.

Lemma length_append (a b : string) :
  String.length (a +:+ b) = (String.length a + String.length b)%nat.
Proof.
  induction a as [|c a IH]; [reflexivity|].
  rewrite append_cons. simpl. now rewrite IH.
Qed.

Lemma append_assoc (a b c : string) : (a +:+ b) +:+ c = a +:+ (b +:+ c).
Proof.
  induction a as [|x a IH]; [reflexivity|].
  rewrite !append_cons. now rewrite IH.
Qed.

Lemma append_empty_r (a : string) : a +:+ "" = a.
Proof.
  induction a as [|x a IH]; [reflexivity|].
  rewrite append_cons. now rewrite IH.
Qed.

Lemma prefix_append (n b : string) : String.prefix n (n +:+ b) = true.
Proof.
  induction n as [|c n IH].
  - rewrite append_nil. now destruct b.
  - rewrite append_cons. simpl.
    destruct (ascii_dec c c); [exact IH | congruence].
Qed.

(** [String.prefix n t] holds exactly when [t] starts with [n]. *)
Lemma prefix_split (n t : string) :
  String.prefix n t = true -> exists b, t = n +:+ b.
Proof.
  revert t. induction n as [|x n IH]; intros t H.
  - exists t. reflexivity.
  - destruct t as [|y t]; [discriminate|]. simpl in H.
    destruct (ascii_dec x y) as [->|]; [|discriminate].
    destruct (IH _ H) as [b ->]. exists b. reflexivity.
Qed.

(** [contains] finds an occurrence wherever it is. *)
Lemma contains_middle (n a b : string) : contains n (a +:+ n +:+ b) = true.
Proof.
  induction a as [|c a IH].
  - rewrite append_nil.
    assert (String.prefix n (n +:+ b) = true) as H by apply prefix_append.
    destruct (n +:+ b); cbn [contains]; now rewrite H.
  - rewrite append_cons. cbn [contains]. rewrite IH. apply orb_true_r.
Qed.

(** ... and only there. *)
Lemma contains_occurs (n s : string) :
  contains n s = true -> exists a b, s = a +:+ n +:+ b.
Proof.
  induction s as [|c s IH]; cbn [contains]; intros H.
  - rewrite orb_false_r in H. destruct n; [|discriminate].
    exists "", "". reflexivity.
  - apply orb_true_iff in H as [H|H].
    + destruct (prefix_split n (String c s) H) as [b Hb].
      exists "", b. exact Hb.
    + destruct (IH H) as (a & b & ->). exists (String c a), b. reflexivity.
Qed.

(** A replacement by a longer string never shortens. *)
Lemma replace_from_length (old new : string) :
  (1 <= String.length old <= String.length new)%nat ->
  forall s skip,
    (String.length s
     <= String.length (replace_from old new skip s) + Nat.min skip (String.length s))%nat.
Proof.
  intros Hlen. induction s as [|c s IH]; intros skip.
  - simpl. lia.
  - destruct skip as [|k]; cbn [replace_from].
    + destruct (String.prefix old (String c s)).
      * rewrite length_append. cbn [String.length].
        specialize (IH (String.length old - 1)%nat). lia.
      * cbn [String.length]. specialize (IH 0%nat). lia.
    + cbn [String.length]. specialize (IH k). lia.
Qed.

(** ... and lengthens a string that holds an occurrence. *)
Lemma replace_from_longer (old new : string) :
  (1 <= String.length old < String.length new)%nat ->
  forall s,
    contains old s = true ->
    (String.length s < String.length (replace_from old new 0 s))%nat.
Proof.
  intros Hlen. induction s as [|c s IH]; cbn [contains replace_from]; intros H.
  - destruct old; simpl in *; [lia | discriminate].
  - destruct (String.prefix old (String c s)) eqn:E.
    + rewrite length_append. cbn [String.length].
      pose proof (replace_from_length old new ltac:(lia) s
                    (String.length old - 1)%nat). lia.
    + simpl in H. cbn [String.length]. specialize (IH H). lia.
Qed.

Lemma join_suffix (a b : string) : exists x, join a b = x +:+ b.
Proof.
  unfold join. destruct (startswith b "/").
  - exists "". reflexivity.
  - destruct (String.eqb a "" || endswith a "/").
    + exists a. reflexivity.
    + exists (a +:+ "/"). now rewrite append_assoc.
Qed.

(** The path of the lossless candidate is never the output path. *)
Lemma lossless_path_longer (output_dir stem : string) :
  (String.length (join output_dir (stem +:+ ".webp"))
   < String.length (replace (join output_dir (stem +:+ ".webp"))
                            ".webp" "_lossless.webp"))%nat.
Proof.
  unfold replace.
  apply replace_from_longer; [simpl; lia|].
  destruct (join_suffix output_dir (stem +:+ ".webp")) as [x ->].
  rewrite <- append_assoc.
  rewrite <- (append_empty_r ((x +:+ stem) +:+ ".webp")), append_assoc.
  apply contains_middle.
Qed.

Lemma lossless_path_ne (output_dir stem : string) :
  replace (join output_dir (stem +:+ ".webp")) ".webp" "_lossless.webp"
  <> join output_dir (stem +:+ ".webp").
Proof.
  intros E. pose proof (lossless_path_longer output_dir stem) as H.
  rewrite E in H. lia.
Qed.

(** ** Running the program step by step *)

Lemma bind_Returns {A B} (c : M A) (k : A -> M B) (st st' : state) (a : A) :
  c st = Returns a st' -> bind c k st = k a st'.
Proof. unfold bind. now intros ->. Qed.

Lemma bind_Raises {A B} (c : M A) (k : A -> M B) (st st' : state) (e : exn) :
  c st = Raises e st' -> bind c k st = Raises e st'.
Proof. unfold bind. now intros ->. Qed.

(** A call that returns went through both halves of a [bind]. *)
Lemma bind_inv {A B} (c : M A) (k : A -> M B) (st st2 : state) (b : B) :
  bind c k st = Returns b st2 ->
  exists a st1, c st = Returns a st1 /\ k a st1 = Returns b st2.
Proof.
  unfold bind. destruct (c st) as [a st1|e st1]; [|discriminate].
  intros H. now exists a, st1.
Qed.

Lemma eqb_GIF_false (s : string) : s <> "GIF" -> String.eqb s "GIF" = false.
Proof. intros H. now apply String.eqb_neq. Qed.

(** [compress_image] on an image that is no GIF and that both encoders
    accept: the call returns, and this is the state it leaves. *)
Lemma compress_image_webp_run (input_path output_dir : string) (quality : Z)
    (st : state) (b lossless lossy : list Byte.byte) (image : Image) :
  fs st !! input_path = Some b ->
  decode b = Some image ->
  image_format image <> "GIF" ->
  encode_webp_lossless image = Some lossless ->
  encode_webp_lossy quality image = Some lossy ->
  let output_path :=
    join output_dir (fst (splitext (basename input_path)) +:+ ".webp") in
  let lossless_output_path := replace output_path ".webp" "_lossless.webp" in
  compress_image input_path output_dir quality st
  = Returns output_path
      (set_fs (webp_files (fs st) output_path lossless_output_path lossless lossy) st).
Proof.
  intros Hin Hdec Hfmt Hll Hly output_path lossless_output_path.
  assert (lossless_output_path <> output_path) as Hne
    by apply lossless_path_ne.
  unfold compress_image.
  fold output_path. fold lossless_output_path.
  unfold Image_open, read_file, bind at 1 2. rewrite Hin, Hdec. unfold ret at 1.
  rewrite (eqb_GIF_false _ Hfmt).
  unfold save_lossless, save_lossy, getsize, read_file, write_file, bind, ret.
  rewrite Hll, Hly. cbn [fs set_fs].
  rewrite lookup_insert_eq. cbn [fs set_fs stdout net_log clock_reads config].
  rewrite lookup_insert_eq.
  unfold webp_files.
  destruct (Z.of_nat (length lossless) <? Z.of_nat (length lossy)).
  - unfold remove, rename. cbn [fs set_fs].
    rewrite lookup_insert_eq. cbn [fs set_fs stdout net_log clock_reads config].
    rewrite lookup_delete_ne by congruence.
    rewrite lookup_insert_ne by congruence. rewrite lookup_insert_eq.
    reflexivity.
  - unfold remove. cbn [fs set_fs].
    rewrite lookup_insert_ne by congruence. rewrite lookup_insert_eq.
    reflexivity.
Qed.

Lemma webp_files_output (f : gmap string (list Byte.byte))
    (output_path lossless_output_path : string) (lossless lossy : list Byte.byte) :
  lossless_output_path <> output_path ->
  webp_files f output_path lossless_output_path lossless lossy !! output_path
  = Some (if Z.of_nat (length lossless) <? Z.of_nat (length lossy)
          then lossless else lossy).
Proof.
  intros Hne. unfold webp_files.
  destruct (Z.of_nat (length lossless) <? Z.of_nat (length lossy)).
  - apply lookup_insert_eq.
  - rewrite lookup_delete_ne by congruence. apply lookup_insert_eq.
Qed.

Lemma webp_files_lossless (f : gmap string (list Byte.byte))
    (output_path lossless_output_path : string) (lossless lossy : list Byte.byte) :
  lossless_output_path <> output_path ->
  webp_files f output_path lossless_output_path lossless lossy
    !! lossless_output_path = None.
Proof.
  intros Hne. unfold webp_files.
  destruct (Z.of_nat (length lossless) <? Z.of_nat (length lossy)).
  - rewrite lookup_insert_ne by congruence. apply lookup_delete_eq.
  - apply lookup_delete_eq.
Qed.

Lemma webp_files_other (f : gmap string (list Byte.byte))
    (output_path lossless_output_path p : string) (lossless lossy : list Byte.byte) :
  p <> output_path -> p <> lossless_output_path ->
  webp_files f output_path lossless_output_path lossless lossy !! p = f !! p.
Proof.
  intros H1 H2. unfold webp_files.
  destruct (Z.of_nat (length lossless) <? Z.of_nat (length lossy)).
  - rewrite lookup_insert_ne by congruence.
    rewrite !lookup_delete_ne by congruence.
    now rewrite !lookup_insert_ne by congruence.
  - rewrite lookup_delete_ne by congruence.
    now rewrite !lookup_insert_ne by congruence.
Qed.

(** *** The shape of the paths *)

Lemma rfind_lower_bound (c : ascii) (s : string) : -1 <= rfind c s.
Proof.
  induction s as [|a s IH]; cbn [rfind]; [lia|].
  destruct (0 <=? rfind c s) eqn:E; [lia|]. destruct (Ascii.eqb a c); lia.
Qed.

(** Nothing after the last occurrence is an occurrence. *)
Lemma rfind_after_last (c : ascii) (s : string) :
  rfind c (drop (Z.to_nat (rfind c s + 1)) s) = -1.
Proof.
  induction s as [|a s IH]; [reflexivity|].
  pose proof (rfind_lower_bound c s) as Hlb.
  cbn [rfind]. destruct (0 <=? rfind c s) eqn:E.
  - apply Z.leb_le in E.
    replace (Z.to_nat (rfind c s + 1 + 1)) with (S (Z.to_nat (rfind c s + 1))) by lia.
    exact IH.
  - apply Z.leb_gt in E. assert (rfind c s = -1) as Hr by lia.
    destruct (Ascii.eqb a c) eqn:Ea.
    + replace (Z.to_nat (0 + 1)) with 1%nat by lia. exact Hr.
    + replace (Z.to_nat (-1 + 1)) with 0%nat by lia.
      cbn [drop rfind]. rewrite Hr, Ea. reflexivity.
Qed.

Lemma basename_no_sep (p : string) : rfind "/" (basename p) = -1.
Proof. apply rfind_after_last. Qed.

Lemma rfind_none_head (c a : ascii) (s : string) :
  rfind c (String a s) = -1 -> Ascii.eqb a c = false.
Proof.
  cbn [rfind]. pose proof (rfind_lower_bound c s).
  destruct (0 <=? rfind c s) eqn:E.
  - apply Z.leb_le in E. lia.
  - destruct (Ascii.eqb a c); [discriminate | reflexivity].
Qed.

Lemma take_head (k : nat) (s t : string) (x : ascii) :
  take k s = String x t -> exists t', s = String x t'.
Proof.
  destruct k, s; cbn [take]; try discriminate.
  intros [= -> _]. now eexists.
Qed.

Lemma splitext_root_head (p t : string) (x : ascii) :
  fst (splitext p) = String x t -> exists t', p = String x t'.
Proof.
  unfold splitext.
  destruct (rfind "/" p <? rfind "." p); [|intros H; now exists t].
  destruct (only_dots _); [intros H; now exists t|].
  cbn [fst]. apply take_head.
Qed.

(** The new file name never starts with a slash, so [join] puts it under
    the output directory. *)
Lemma webp_name_relative (input_path : string) :
  startswith (fst (splitext (basename input_path)) +:+ ".webp") "/" = false.
Proof.
  destruct (fst (splitext (basename input_path))) as [|x t] eqn:E; [reflexivity|].
  apply splitext_root_head in E as [t' E].
  pose proof (basename_no_sep input_path) as H. rewrite E in H.
  apply rfind_none_head in H.
  rewrite append_cons. unfold startswith. cbn [String.prefix].
  destruct (ascii_dec "/" x) as [<-|]; [discriminate | reflexivity].
Qed.

Lemma join_under (output_dir name : string) :
  startswith name "/" = false ->
  output_dir <> "" -> endswith output_dir "/" = false ->
  join output_dir name = output_dir +:+ "/" +:+ name.
Proof.
  intros H1 H2 H3. unfold join. rewrite H1, H3.
  apply String.eqb_neq in H2. now rewrite H2.
Qed.

(** ** [compress_image] *)

(** C1.  For an input that is not a GIF (and that PIL decodes and the WebP
    encoder accepts), [compress_image input_path output_dir quality] returns
    [output_dir/<base>.webp], where [<base>] is the input's file name without
    its extension; the file at that path is one of the two candidate
    encodings and is no larger than the smaller of the lossless and the lossy
    one; of the two candidate files only that one remains, the file of the
    lossless intermediate is gone, and every other file is as it was: the
    files after the call are the files before it, with the output file and
    without the intermediate. *)
Theorem compress_image_keeps_smaller (input_path output_dir : string)
    (quality : Z) (st : state) (b lossless lossy : list Byte.byte)
    (image : Image) :
  fs st !! input_path = Some b ->
  decode b = Some image ->
  image_format image <> "GIF" ->
  encode_webp_lossless image = Some lossless ->
  encode_webp_lossy quality image = Some lossy ->
  let base := fst (splitext (basename input_path)) in
  let output_path := join output_dir (base +:+ ".webp") in
  let lossless_output_path := replace output_path ".webp" "_lossless.webp" in
  exists st' kept,
    compress_image input_path output_dir quality st = Returns output_path st'
    /\ (output_dir <> "" -> endswith output_dir "/" = false ->
        output_path = output_dir +:+ "/" +:+ base +:+ ".webp")
    /\ fs st' !! output_path = Some kept
    /\ (kept = lossless \/ kept = lossy)
    /\ (length kept <= Nat.min (length lossless) (length lossy))%nat
    /\ lossless_output_path <> output_path
    /\ fs st' !! lossless_output_path = None
    /\ (forall p, p <> output_path -> p <> lossless_output_path ->
                  fs st' !! p = fs st !! p)
    /\ dom (fs st')
       = {[output_path]} ∪ (dom (fs st) ∖ {[lossless_output_path]}).
Proof.
  intros Hin Hdec Hfmt Hll Hly base output_path lossless_output_path.
  assert (lossless_output_path <> output_path) as Hne by apply lossless_path_ne.
  eexists _, (if Z.of_nat (length lossless) <? Z.of_nat (length lossy)
              then lossless else lossy).
  split; [exact (compress_image_webp_run _ _ _ _ _ _ _ _ Hin Hdec Hfmt Hll Hly)|].
  cbn [fs set_fs].
  split; [intros; apply join_under; [apply webp_name_relative | assumption..]|].
  split; [now apply webp_files_output|].
  split; [destruct (_ <? _); auto|].
  split; [destruct (Z.of_nat (length lossless) <? Z.of_nat (length lossy)) eqn:E;
          [apply Z.ltb_lt in E | apply Z.ltb_ge in E]; lia|].
  split; [exact Hne|].
  split; [now apply webp_files_lossless|].
  split; [intros p H1 H2; now apply webp_files_other|].
  apply set_eq. intros p.
  rewrite elem_of_union, elem_of_difference, elem_of_singleton,
    !elem_of_dom, elem_of_singleton.
  destruct (decide (p = output_path)) as [->|H1].
  { rewrite webp_files_output by exact Hne. split; eauto. }
  destruct (decide (p = lossless_output_path)) as [->|H2].
  { rewrite webp_files_lossless by exact Hne. split.
    - intros [? [=]].
    - intros [? | [_ ?]]; congruence. }
  rewrite webp_files_other by assumption. split; [auto|].
  intros [? | [? _]]; [congruence | assumption].
Qed.

(** C9.  The comparison of line 49 is strict: the lossless candidate is kept
    exactly when it is strictly smaller.  When the two candidates have the
    same size the lossy one is kept and the lossless file is removed. *)
Theorem compress_image_tie_keeps_lossy (input_path output_dir : string)
    (quality : Z) (st : state) (b lossless lossy : list Byte.byte)
    (image : Image) :
  fs st !! input_path = Some b ->
  decode b = Some image ->
  image_format image <> "GIF" ->
  encode_webp_lossless image = Some lossless ->
  encode_webp_lossy quality image = Some lossy ->
  let output_path :=
    join output_dir (fst (splitext (basename input_path)) +:+ ".webp") in
  let lossless_output_path := replace output_path ".webp" "_lossless.webp" in
  exists st',
    compress_image input_path output_dir quality st = Returns output_path st'
    /\ fs st' !! lossless_output_path = None
    /\ (length lossless = length lossy -> fs st' !! output_path = Some lossy)
    /\ ((length lossy < length lossless)%nat ->
        fs st' !! output_path = Some lossy)
    /\ ((length lossless < length lossy)%nat ->
        fs st' !! output_path = Some lossless).
Proof.
  intros Hin Hdec Hfmt Hll Hly output_path lossless_output_path.
  assert (lossless_output_path <> output_path) as Hne by apply lossless_path_ne.
  eexists.
  split; [exact (compress_image_webp_run _ _ _ _ _ _ _ _ Hin Hdec Hfmt Hll Hly)|].
  cbn [fs set_fs].
  split; [now apply webp_files_lossless|].
  rewrite webp_files_output by exact Hne.
  repeat split; intros H;
    destruct (Z.of_nat (length lossless) <? Z.of_nat (length lossy)) eqn:E;
    try reflexivity;
    (apply Z.ltb_lt in E || apply Z.ltb_ge in E); lia.
Qed.

(** A GIF is copied under its own name (lines 30-33), unless it already is
    the file [output_dir/<name>]: [shutil.copy] then raises. *)
Lemma compress_image_gif_run (input_path output_dir : string) (quality : Z)
    (st : state) (b : list Byte.byte) (image : Image) :
  fs st !! input_path = Some b ->
  decode b = Some image ->
  image_format image = "GIF" ->
  let output_path := join output_dir (basename input_path) in
  compress_image input_path output_dir quality st
  = if String.eqb input_path output_path
    then Raises (SameFileError input_path output_path) st
    else Returns output_path (set_fs (<[output_path := b]> (fs st)) st).
Proof.
  intros Hin Hdec Hfmt output_path.
  unfold compress_image. fold output_path.
  unfold Image_open, read_file, bind at 1 2. rewrite Hin, Hdec. unfold ret at 1.
  rewrite Hfmt. cbn [String.eqb Ascii.eqb Bool.eqb].
  unfold bind, shutil_copy. rewrite Hin.
  now destruct (String.eqb input_path output_path).
Qed.

(** Every run of [compress_image], by cases on the input: the function is
    total, and its outcome is read off the input file alone. *)
Lemma compress_image_cases (input_path output_dir : string) (quality : Z)
    (st : state) :
  compress_image input_path output_dir quality st
  = match fs st !! input_path with
    | None => Raises (FileNotFoundError input_path) st
    | Some b =>
        match decode b with
        | None => Raises (UnidentifiedImageError input_path) st
        | Some image =>
            if String.eqb (image_format image) "GIF" then
              let output_path := join output_dir (basename input_path) in
              if String.eqb input_path output_path
              then Raises (SameFileError input_path output_path) st
              else Returns output_path
                     (set_fs (<[output_path := b]> (fs st)) st)
            else
              let output_path :=
                join output_dir
                  (fst (splitext (basename input_path)) +:+ ".webp") in
              let lossless_output_path :=
                replace output_path ".webp" "_lossless.webp" in
              match encode_webp_lossless image with
              | None => Raises EncoderError st
              | Some lossless =>
                  match encode_webp_lossy quality image with
                  | None =>
                      Raises EncoderError
                        (set_fs (<[lossless_output_path := lossless]> (fs st)) st)
                  | Some lossy =>
                      Returns output_path
                        (set_fs (webp_files (fs st) output_path
                                   lossless_output_path lossless lossy) st)
                  end
              end
        end
    end.
Proof.
  destruct (fs st !! input_path) as [b|] eqn:Hin.
  2:{ unfold compress_image, Image_open, read_file, bind. now rewrite Hin. }
  destruct (decode b) as [image|] eqn:Hdec.
  2:{ unfold compress_image, Image_open, read_file, bind. now rewrite Hin, Hdec. }
  destruct (String.eqb (image_format image) "GIF") eqn:Hfmt.
  { apply String.eqb_eq in Hfmt.
    exact (compress_image_gif_run _ _ _ _ _ _ Hin Hdec Hfmt). }
  apply String.eqb_neq in Hfmt.
  destruct (encode_webp_lossless image) as [lossless|] eqn:Hll.
  2:{ unfold compress_image, Image_open, read_file, bind at 1 2.
      rewrite Hin, Hdec. unfold ret at 1. rewrite (eqb_GIF_false _ Hfmt).
      unfold bind, save_lossless. now rewrite Hll. }
  destruct (encode_webp_lossy quality image) as [lossy|] eqn:Hly.
  { exact (compress_image_webp_run _ _ _ _ _ _ _ _ Hin Hdec Hfmt Hll Hly). }
  unfold compress_image, Image_open, read_file, bind at 1 2.
  rewrite Hin, Hdec. unfold ret at 1. rewrite (eqb_GIF_false _ Hfmt).
  unfold save_lossless, save_lossy, getsize, read_file, write_file, bind, ret.
  rewrite Hll, Hly. cbn [fs set_fs]. rewrite lookup_insert_eq. reflexivity.
Qed.

(** C7.  [compress_image] is a function of the input image and the quality:
    in two states that hold the same bytes at [input_path], whatever else
    they hold (files left by an earlier run, other printed lines, another
    configuration), the two runs raise the same exception or return the same
    path with the same bytes in the output file. *)
Theorem compress_image_deterministic (input_path output_dir : string)
    (quality : Z) (st1 st2 : state) :
  fs st1 !! input_path = fs st2 !! input_path ->
  same_outcome (compress_image input_path output_dir quality st1)
               (compress_image input_path output_dir quality st2).
Proof.
  intros H. rewrite !compress_image_cases, H.
  destruct (fs st2 !! input_path) as [b|]; [|reflexivity].
  destruct (decode b) as [image|]; [|reflexivity].
  destruct (String.eqb (image_format image) "GIF").
  - cbv zeta. destruct (String.eqb input_path _); [reflexivity|].
    cbn [same_outcome fs set_fs]. rewrite !lookup_insert_eq. eauto.
  - cbv zeta.
    destruct (encode_webp_lossless image) as [lossless|]; [|reflexivity].
    destruct (encode_webp_lossy quality image) as [lossy|]; [|reflexivity].
    cbn [same_outcome fs set_fs].
    rewrite !webp_files_output by apply lossless_path_ne. eauto.
Qed.

(** ** The class [Drive] *)

(** A refresh that the token endpoint answers well: the call returns, one
    request was sent, the clock was read once, and the new record is in
    memory and in the file. *)
Lemma refresh_access_token_run (st : state) (data : list (string * pyval))
    (r : response) (j : gmap string pyval)
    (access_token refresh_token : pyval) (expires_in : Z) :
  refresh_form (config st) = Some data ->
  remote (net_log st) (Post TOKEN_URL data) = Some r ->
  json r = Some j ->
  j !! "access_token" = Some access_token ->
  j !! "refresh_token" = Some refresh_token ->
  j !! "expires_in" = Some (PInt expires_in) ->
  let cfg' := refreshed_config (config st) access_token refresh_token
                (clock (clock_reads st)) expires_in in
  refresh_access_token st
  = Returns tt
      (State (<["config.yaml" := yaml_safe_dump cfg']> (fs st)) (stdout st)
             (net_log st ++ [Post TOKEN_URL data]) (S (clock_reads st)) cfg').
Proof.
  intros Hform Hrem Hjson Hat Hrt Hex cfg'. unfold refresh_form in Hform.
  destruct (config st !! "client_id") as [cid|] eqn:Hcid; [|discriminate].
  destruct (config st !! "client_secret") as [sec|] eqn:Hsec; [|discriminate].
  destruct (config st !! "refresh_token") as [old|] eqn:Hold; [|discriminate].
  injection Hform as <-.
  unfold refresh_access_token, get_config, http, response_json, getitem,
    config_setitem, time_time, py_add, write_file, bind, ret.
  rewrite Hcid, Hsec, Hold. cbv beta iota.
  rewrite Hrem, Hjson. cbv beta iota.
  rewrite Hat, Hrt, Hex.
  reflexivity.
Qed.

(** [get_access_token] on a record that is not yet expired by line 94: the
    clock is read, nothing else happens. *)
Lemma get_access_token_fresh (st : state) (expires_at : Z) (token : pyval) :
  config st !! "expires_at" = Some (PInt expires_at) ->
  clock (clock_reads st) - 60 <= expires_at ->
  config st !! "access_token" = Some token ->
  get_access_token st
  = Returns token
      (State (fs st) (stdout st) (net_log st) (S (clock_reads st)) (config st)).
Proof.
  intros He Hle Htok.
  unfold get_access_token, get_config, getitem, time_time, py_lt, bind, ret.
  rewrite He. cbv beta iota.
  assert ((expires_at <? clock (clock_reads st) - 60) = false) as ->
    by now apply Z.ltb_ge.
  cbn [config]. now rewrite Htok.
Qed.

(** [get_access_token] on an expired record: one refresh, then the new
    token.  The expiry is counted from the clock reading of the refresh,
    which is the second of the call. *)
Lemma get_access_token_expired (st : state) (expires_at : Z)
    (data : list (string * pyval)) (r : response) (j : gmap string pyval)
    (access_token refresh_token : pyval) (expires_in : Z) :
  config st !! "expires_at" = Some (PInt expires_at) ->
  expires_at < clock (clock_reads st) - 60 ->
  refresh_form (config st) = Some data ->
  remote (net_log st) (Post TOKEN_URL data) = Some r ->
  json r = Some j ->
  j !! "access_token" = Some access_token ->
  j !! "refresh_token" = Some refresh_token ->
  j !! "expires_in" = Some (PInt expires_in) ->
  let cfg' := refreshed_config (config st) access_token refresh_token
                (clock (S (clock_reads st))) expires_in in
  get_access_token st
  = Returns access_token
      (State (<["config.yaml" := yaml_safe_dump cfg']> (fs st)) (stdout st)
             (net_log st ++ [Post TOKEN_URL data]) (S (S (clock_reads st)))
             cfg').
Proof.
  intros He Hlt Hform Hrem Hjson Hat Hrt Hex cfg'.
  unfold get_access_token.
  unfold get_config at 1, getitem at 1, time_time, py_lt, bind at 1 2 3 4, ret at 1.
  rewrite He. cbv beta iota.
  assert ((expires_at <? clock (clock_reads st) - 60) = true) as ->
    by now apply Z.ltb_lt.
  unfold ret at 1.
  erewrite bind_Returns; cycle 1.
  { apply refresh_access_token_run with (r := r) (j := j); cbn [config net_log];
      eassumption. }
  unfold get_config, getitem, bind. cbn [config clock_reads].
  fold cfg'. unfold cfg' at 1, refreshed_config.
  rewrite lookup_insert_ne by discriminate.
  rewrite lookup_insert_ne by discriminate.
  rewrite lookup_insert_eq. reflexivity.
Qed.

(** [upload_by_path] once the token is at hand: the file is read and put. *)
Lemma upload_by_path_run (drive_file_path file_path : string) (st st1 : state)
    (token : pyval) (body : list Byte.byte) (r : response)
    (info : gmap string pyval) :
  get_access_token st = Returns token st1 ->
  fs st1 !! file_path = Some body ->
  remote (net_log st1) (upload_request drive_file_path token body) = Some r ->
  json r = Some info ->
  upload_by_path drive_file_path file_path st
  = Returns info
      (State (fs st1) (stdout st1)
             (net_log st1 ++ [upload_request drive_file_path token body])
             (clock_reads st1) (config st1)).
Proof.
  intros Htok Hfile Hrem Hjson.
  unfold upload_by_path, generate_header.
  unfold bind at 1 2. rewrite Htok. unfold ret at 1.
  unfold read_file, bind at 1. rewrite Hfile.
  unfold http, bind. unfold upload_request in Hrem. rewrite Hrem.
  unfold response_json. now rewrite Hjson.
Qed.

Lemma refresh_calls_app (l1 l2 : list request) :
  refresh_calls (l1 ++ l2) = (refresh_calls l1 + refresh_calls l2)%nat.
Proof. unfold refresh_calls. now rewrite List.filter_app, length_app. Qed.

(** C2, as the code has it.  The test of line 94 is strict.  When the stored
    [expires_at] is below [now - 60] and the token endpoint answers, the
    accessor sends exactly one request, the refresh, writes the new record to
    the configuration file and returns the new token; an upload then sends
    the refresh before its own request and carries the new token.  When the
    stored [expires_at] is [now - 60] or above, the accessor sends nothing
    and leaves the files and the record as they are. *)
Theorem get_access_token_refresh_rule (st : state) (expires_at : Z) :
  config st !! "expires_at" = Some (PInt expires_at) ->
  let now := clock (clock_reads st) in
  (expires_at < now - 60 ->
   forall data r j access_token refresh_token expires_in,
     refresh_form (config st) = Some data ->
     remote (net_log st) (Post TOKEN_URL data) = Some r ->
     json r = Some j ->
     j !! "access_token" = Some access_token ->
     j !! "refresh_token" = Some refresh_token ->
     j !! "expires_in" = Some (PInt expires_in) ->
     (exists st',
        get_access_token st = Returns access_token st'
        /\ net_log st' = net_log st ++ [Post TOKEN_URL data]
        /\ refresh_calls (net_log st') = S (refresh_calls (net_log st))
        /\ config st' = refreshed_config (config st) access_token refresh_token
                          (clock (S (clock_reads st))) expires_in
        /\ in_sync st')
     /\ (forall drive_file_path file_path body r' info,
           file_path <> "config.yaml" ->
           fs st !! file_path = Some body ->
           remote (net_log st ++ [Post TOKEN_URL data])
                  (upload_request drive_file_path access_token body) = Some r' ->
           json r' = Some info ->
           exists st',
             upload_by_path drive_file_path file_path st = Returns info st'
             /\ net_log st'
                = net_log st ++ [Post TOKEN_URL data;
                                 upload_request drive_file_path access_token body]))
  /\ (now - 60 <= expires_at ->
      forall token,
        config st !! "access_token" = Some token ->
        exists st',
          get_access_token st = Returns token st'
          /\ net_log st' = net_log st
          /\ fs st' = fs st
          /\ config st' = config st).
Proof.
  intros He now. split.
  - intros Hlt data r j access_token refresh_token expires_in
      Hform Hrem Hjson Hat Hrt Hex.
    pose proof (get_access_token_expired _ _ _ _ _ _ _ _
                  He Hlt Hform Hrem Hjson Hat Hrt Hex) as Hrun.
    cbv zeta in Hrun. split.
    + eexists. split; [exact Hrun|]. cbn [net_log config fs].
      split; [reflexivity|]. split.
      { rewrite refresh_calls_app. cbn. lia. }
      split; [reflexivity|].
      unfold in_sync. cbn [fs config]. apply lookup_insert_eq.
    + intros drive_file_path file_path body r' info Hne Hfile Hrem' Hjson'.
      eexists. split.
      { eapply upload_by_path_run; [exact Hrun|..]; cbn [fs net_log].
        - rewrite lookup_insert_ne by congruence. exact Hfile.
        - exact Hrem'.
        - exact Hjson'. }
      cbn [net_log]. now rewrite <- app_assoc.
  - intros Hle token Htok. eexists. split.
    + now apply get_access_token_fresh with (expires_at := expires_at).
    + now cbn.
Qed.

(** ** The argument loop *)

(** An argument that starts with [http] and passes the test of line 141 is
    printed, and the loop is left. *)
Lemma loop_body_already_hosted (base_dir img_path : string) (st : state) :
  startswith img_path "http" = true ->
  already_hosted img_path = true ->
  loop_body base_dir img_path st = Returns Break (printed img_path st).
Proof.
  intros Hhttp Hhost. unfold loop_body. rewrite Hhttp, Hhost. reflexivity.
Qed.

(** The arguments before the one at which the loop is have been gone
    through without [break]. *)
Lemma for_each_app (base_dir : string) (before rest : list string)
    (st st1 : state) :
  for_each base_dir before st = Returns Continue st1 ->
  for_each base_dir (before ++ rest) st = for_each base_dir rest st1.
Proof.
  revert st. induction before as [|a before IH]; intros st H.
  - cbn in H. unfold ret in H. now injection H as <-.
  - cbn [for_each app] in *. unfold bind in *.
    destruct (loop_body base_dir a st) as [[] st2|e st2]; try discriminate.
    now apply IH.
Qed.

(** C3.  When the loop reaches an argument that starts with [http] and
    contains the domain of the public URLs, [img.0a0.moe], it prints that
    argument and stops: the state is the one the loop had reached, with that
    one line more on standard output; no file is written, no request is sent,
    and the arguments after it play no part. *)
Theorem exempt_url_halts_batch (base_dir : string) (before rest : list string)
    (img_path : string) (st st1 : state) :
  for_each base_dir before st = Returns Continue st1 ->
  startswith img_path "http" = true ->
  contains "img.0a0.moe" img_path = true ->
  exists st',
    for_each base_dir (before ++ img_path :: rest) st = Returns Break st'
    /\ stdout st' = stdout st1 ++ [img_path]
    /\ fs st' = fs st1
    /\ net_log st' = net_log st1
    /\ config st' = config st1
    /\ for_each base_dir (before ++ img_path :: rest) st
       = for_each base_dir (before ++ [img_path]) st.
Proof.
  intros Hbefore Hhttp Hdom.
  assert (already_hosted img_path = true) as Hhost.
  { unfold already_hosted. rewrite Hdom. apply orb_true_r. }
  assert (forall l, for_each base_dir (before ++ img_path :: l) st
                    = Returns Break (printed img_path st1)) as Hrun.
  { intros l. rewrite (for_each_app _ _ _ _ _ Hbefore).
    cbn [for_each]. unfold bind.
    now rewrite (loop_body_already_hosted _ _ _ Hhttp Hhost). }
  exists (printed img_path st1). rewrite (Hrun rest), (Hrun []). now cbn.
Qed.

(** C10.  The exemption is a test on the text of the argument: an argument
    that starts with [http] and holds [img.jks.moe] or [img.0a0.moe] at any
    position is printed and ends the loop, whatever its host; this goes for
    [img.jks.moe] too, which is not the domain of the public URLs. *)
Theorem exemption_is_substring_test (base_dir img_path : string)
    (front back domain : string) (st : state) :
  startswith img_path "http" = true ->
  domain = "img.jks.moe" \/ domain = "img.0a0.moe" ->
  img_path = front +:+ domain +:+ back ->
  loop_body base_dir img_path st = Returns Break (printed img_path st)
  /\ contains "img.jks.moe" img_url_base = false.
Proof.
  intros Hhttp Hdomain ->. split; [|reflexivity].
  apply loop_body_already_hosted; [exact Hhttp|].
  unfold already_hosted.
  destruct Hdomain as [-> | ->]; rewrite contains_middle;
    [reflexivity | apply orb_true_r].
Qed.

(** *** What the calls that return leave behind *)

(** [compress_image] touches the file system only, and there only the
    output path and the path of the lossless candidate; the file it returns
    exists. *)
Lemma compress_image_returns (input_path output_dir : string) (quality : Z)
    (st st' : state) (path : string) :
  compress_image input_path output_dir quality st = Returns path st' ->
  stdout st' = stdout st /\ net_log st' = net_log st
  /\ clock_reads st' = clock_reads st /\ config st' = config st
  /\ is_Some (fs st' !! path)
  /\ (path = join output_dir (basename input_path)
      \/ path = join output_dir
                  (fst (splitext (basename input_path)) +:+ ".webp"))
  /\ (forall p, p <> path -> p <> replace path ".webp" "_lossless.webp" ->
                fs st' !! p = fs st !! p).
Proof.
  rewrite compress_image_cases.
  destruct (fs st !! input_path) as [b|]; [|discriminate].
  destruct (decode b) as [image|]; [|discriminate].
  destruct (String.eqb (image_format image) "GIF").
  - cbv zeta. destruct (String.eqb input_path _); [discriminate|].
    intros [= <- <-]. cbn [stdout net_log clock_reads config fs set_fs].
    rewrite lookup_insert_eq. repeat split; eauto.
    intros p Hp _. now rewrite lookup_insert_ne by congruence.
  - cbv zeta.
    destruct (encode_webp_lossless image) as [lossless|]; [|discriminate].
    destruct (encode_webp_lossy quality image) as [lossy|]; [|discriminate].
    intros [= <- <-]. cbn [stdout net_log clock_reads config fs set_fs].
    rewrite webp_files_output by apply lossless_path_ne.
    repeat split; eauto.
    intros p H1 H2. now apply webp_files_other.
Qed.

(** A refresh returns only when the token endpoint has answered with the
    three fields, the last one an integer. *)
Lemma refresh_access_token_returns (st st' : state) (u : unit) :
  refresh_access_token st = Returns u st' ->
  exists data r j access_token refresh_token expires_in,
    refresh_form (config st) = Some data
    /\ remote (net_log st) (Post TOKEN_URL data) = Some r
    /\ json r = Some j
    /\ j !! "access_token" = Some access_token
    /\ j !! "refresh_token" = Some refresh_token
    /\ j !! "expires_in" = Some (PInt expires_in).
Proof.
  unfold refresh_access_token, refresh_form, get_config, http, response_json,
    getitem, config_setitem, time_time, py_add, write_file, bind, ret, raise.
  destruct (config st !! "client_id") as [cid|]; [|discriminate].
  destruct (config st !! "client_secret") as [sec|]; [|discriminate].
  destruct (config st !! "refresh_token") as [old|]; [|discriminate].
  cbv beta iota.
  destruct (remote (net_log st) _) as [r|] eqn:Hrem; [|discriminate].
  destruct (json r) as [j|] eqn:Hjson; [|discriminate].
  cbv beta iota.
  destruct (j !! "access_token") as [access_token|] eqn:Hat; [|discriminate].
  destruct (j !! "refresh_token") as [refresh_token|] eqn:Hrt; [|discriminate].
  destruct (j !! "expires_in") as [[s|expires_in|]|] eqn:Hex; try discriminate.
  intros _. eexists _, r, j, access_token, refresh_token, expires_in.
  split; [reflexivity|]. repeat split; assumption.
Qed.

(** What [get_access_token] leaves when it returns: standard output and all
    files but the configuration file are as before, at most one request was
    sent, a refresh, and the file is in step with the record if it was. *)
Lemma get_access_token_returns (st st' : state) (token : pyval) :
  get_access_token st = Returns token st' ->
  stdout st' = stdout st
  /\ (forall p, p <> "config.yaml" -> fs st' !! p = fs st !! p)
  /\ (net_log st' = net_log st
      \/ exists data, net_log st' = net_log st ++ [Post TOKEN_URL data])
  /\ (in_sync st -> in_sync st')
  /\ config st' !! "access_token" = Some token.
Proof.
  intros H.
  destruct (config st !! "expires_at") as [[s|expires_at|]|] eqn:He.
  1,3,4: exfalso; revert H;
    unfold get_access_token, get_config, getitem, time_time, py_lt, bind,
      ret, raise; rewrite He; discriminate.
  destruct (Z_lt_le_dec expires_at (clock (clock_reads st) - 60)) as [Hlt|Hle].
  - revert H. unfold get_access_token.
    unfold get_config at 1, getitem at 1, bind at 1 2. rewrite He.
    unfold ret at 1, time_time, py_lt, bind at 1 2.
    assert ((expires_at <? clock (clock_reads st) - 60) = true) as ->
      by now apply Z.ltb_lt.
    unfold ret at 1. intros H.
    apply bind_inv in H as ([] & st1 & Hrefresh & H).
    destruct (refresh_access_token_returns _ _ _ Hrefresh)
      as (data & r & j & access_token & refresh_token & expires_in
          & Hform & Hrem & Hjson & Hat & Hrt & Hex).
    rewrite (refresh_access_token_run _ _ _ _ _ _ _
               Hform Hrem Hjson Hat Hrt Hex) in Hrefresh.
    injection Hrefresh as <-.
    unfold get_config, getitem, bind in H. cbn [config] in H.
    destruct (refreshed_config _ _ _ _ _ !! "access_token") as [v|] eqn:Hv;
      [|discriminate].
    injection H as -> <-. cbn [stdout fs net_log config].
    split; [reflexivity|].
    split; [intros p Hp; now rewrite lookup_insert_ne by congruence|].
    split; [right; now exists data|].
    split; [intros _; unfold in_sync; cbn [fs config]; apply lookup_insert_eq|].
    exact Hv.
  - destruct (config st !! "access_token") as [v|] eqn:Hv.
    + rewrite (get_access_token_fresh st expires_at v He Hle Hv) in H.
      injection H as -> <-. cbn [stdout fs net_log config]. repeat split; auto.
    + exfalso. revert H. unfold get_access_token.
      unfold get_config at 1, getitem at 1, bind at 1 2. rewrite He.
      unfold ret at 1, time_time, py_lt, bind at 1 2.
      assert ((expires_at <? clock (clock_reads st) - 60) = false) as ->
        by now apply Z.ltb_ge.
      unfold ret, get_config, getitem, bind. cbn [config]. now rewrite Hv.
Qed.

(** What [upload_by_path] has done when it returns. *)
Lemma upload_by_path_returns (drive_file_path file_path : string)
    (st st' : state) (info : gmap string pyval) :
  upload_by_path drive_file_path file_path st = Returns info st' ->
  exists st1 token body r,
    get_access_token st = Returns token st1
    /\ fs st1 !! file_path = Some body
    /\ remote (net_log st1) (upload_request drive_file_path token body) = Some r
    /\ json r = Some info
    /\ st' = State (fs st1) (stdout st1)
               (net_log st1 ++ [upload_request drive_file_path token body])
               (clock_reads st1) (config st1).
Proof.
  unfold upload_by_path, generate_header. intros H.
  apply bind_inv in H as (headers & st1' & Hh & H).
  apply bind_inv in Hh as (token & st1 & Htok & Hh).
  unfold ret in Hh. simplify_eq.
  apply bind_inv in H as (body & st2 & Hbody & H).
  unfold read_file in Hbody.
  destruct (fs st1' !! file_path) as [body'|] eqn:Hfile; [|discriminate].
  simplify_eq.
  apply bind_inv in H as (r & st3 & Hr & H).
  unfold http in Hr.
  destruct (remote (net_log st2) _) as [r'|] eqn:Hrem; [|discriminate].
  simplify_eq.
  unfold response_json in H. destruct (json r) as [j|] eqn:Hjson; [|discriminate].
  unfold ret in H. simplify_eq.
  eexists _, _, _, _. repeat split; eassumption.
Qed.

Lemma loop_body_halves (base_dir img_path : string) :
  loop_body base_dir img_path
  = let* local := acquire img_path in
    match local with
    | None => ret Break
    | Some img_path => process base_dir img_path
    end.
Proof. reflexivity. Qed.

Lemma acquire_returns (img_path local : string) (st st1 : state) :
  acquire img_path st = Returns (Some local) st1 ->
  (startswith img_path "http" = false /\ local = img_path /\ st1 = st)
  \/ (startswith img_path "http" = true /\ already_hosted img_path = false
      /\ local = "temp/" +:+ basename (md5_hexdigest img_path)
      /\ exists r, remote (net_log st) (Get img_path) = Some r
                   /\ st1 = downloaded img_path local r st).
Proof.
  unfold acquire.
  destruct (startswith img_path "http").
  - destruct (already_hosted img_path); [discriminate|].
    unfold write_file, http, bind, ret.
    cbn [net_log set_fs fs stdout clock_reads config].
    destruct (remote (net_log st) (Get img_path)) as [r|] eqn:Hrem;
      [|discriminate].
    cbn [net_log set_fs fs stdout clock_reads config].
    intros [= <- <-]. right. repeat split; trivial. now exists r.
  - unfold ret. intros [= <- <-]. now left.
Qed.

Lemma acquire_break (img_path : string) (st st1 : state) :
  acquire img_path st = Returns None st1 ->
  startswith img_path "http" = true /\ already_hosted img_path = true
  /\ st1 = printed img_path st.
Proof.
  unfold acquire.
  destruct (startswith img_path "http"); [|discriminate].
  destruct (already_hosted img_path).
  - unfold print, bind, ret. now intros [= <-].
  - unfold write_file, http, bind, ret.
    cbn [net_log set_fs fs stdout clock_reads config].
    destruct (remote _ _); discriminate.
Qed.

(** What [process] has done when it returns. *)
Lemma process_returns (base_dir img_path : string) (st st' : state) (f : flow) :
  process base_dir img_path st = Returns f st' ->
  exists compressed_img_path st1 st2 token body r info id,
    compress_image img_path "temp" 80 st = Returns compressed_img_path st1
    /\ get_access_token st1 = Returns token st2
    /\ fs st2 !! compressed_img_path = Some body
    /\ let req := upload_request (base_dir +:+ basename compressed_img_path)
                    token body in
       remote (net_log st2) req = Some r
       /\ json r = Some info
       /\ info !! "id" = Some (PStr id)
       /\ f = Continue
       /\ st' = State (delete compressed_img_path (fs st2))
                  (stdout st2 ++ [img_url_base +:+ lower id])
                  (net_log st2 ++ [req]) (clock_reads st2) (config st2).
Proof.
  unfold process. intros H.
  apply bind_inv in H as (compressed_img_path & st1 & Hc & H).
  apply bind_inv in H as (info & st3 & Hu & H).
  apply upload_by_path_returns in Hu
    as (st2 & token & body & r & Htok & Hfile & Hrem & Hjson & ->).
  apply bind_inv in H as (file_id & st4 & Hid & H).
  unfold getitem in Hid.
  destruct (info !! "id") as [v|] eqn:Hv; [|discriminate].
  unfold ret in Hid. simplify_eq.
  apply bind_inv in H as (lowered & st5 & Hl & H).
  destruct file_id as [id| |]; try discriminate.
  unfold py_lower, ret in Hl. simplify_eq.
  unfold print, remove, bind, ret in H. cbn [fs] in H.
  rewrite Hfile in H. simplify_eq.
  eexists _, _, _, _, _, _, _, _. cbv zeta.
  repeat split; first [eassumption | reflexivity].
Qed.

(** C8.  Every pass of the loop that uploads an image ends with one more
    line on standard output: the fixed base URL followed by the lower-cased
    [id] of the answer to the upload request, the last request sent. *)
Theorem printed_url_is_base_and_lowered_id (base_dir img_path : string)
    (st st' : state) :
  loop_body base_dir img_path st = Returns Continue st' ->
  exists log drive_file_path token body r info id,
    net_log st' = log ++ [upload_request drive_file_path token body]
    /\ remote log (upload_request drive_file_path token body) = Some r
    /\ json r = Some info
    /\ info !! "id" = Some (PStr id)
    /\ stdout st' = stdout st ++ ["https://img.0a0.moe/od/" +:+ lower id].
Proof.
  rewrite loop_body_halves. intros H.
  apply bind_inv in H as ([local|] & st0 & Ha & H); [|discriminate].
  assert (stdout st0 = stdout st) as Hout0.
  { apply acquire_returns in Ha
      as [(_ & _ & ->) | (_ & _ & _ & r0 & _ & ->)]; reflexivity. }
  apply process_returns in H
    as (path & st1 & st2 & token & body & r & info & id
        & Hc & Htok & Hfile & Hrem & Hjson & Hid & _ & ->).
  apply compress_image_returns in Hc as (Hout1 & _).
  apply get_access_token_returns in Htok as (Hout2 & _).
  eexists _, _, _, _, _, _, _. cbn [net_log stdout].
  split; [reflexivity|].
  split; [exact Hrem|]. split; [exact Hjson|]. split; [exact Hid|].
  now rewrite Hout2, Hout1, Hout0.
Qed.

(** *** Paths under [temp/] *)

Lemma rfind_hexdigest (c : ascii) (s : string) :
  is_hexdigit c = false -> hexdigest s = true -> rfind c s = -1.
Proof.
  intros Hc. induction s as [|a s IH]; [reflexivity|].
  cbn [hexdigest rfind]. intros [Ha Hs]%andb_true_iff.
  rewrite (IH Hs). change (0 <=? -1) with false. cbv iota.
  destruct (Ascii.eqb_spec a c) as [->|]; [congruence | reflexivity].
Qed.

Lemma rfind_append_last (c : ascii) (a h : string) :
  rfind c h = -1 -> rfind c (a +:+ String c h) = Z.of_nat (String.length a).
Proof.
  intros Hh. induction a as [|x a IH].
  - rewrite append_nil. cbn [rfind String.length]. rewrite Hh.
    change (0 <=? -1) with false. cbv iota. now rewrite Ascii.eqb_refl.
  - rewrite append_cons. cbn [rfind String.length]. rewrite IH.
    destruct (0 <=? Z.of_nat (String.length a)) eqn:E; [lia|].
    apply Z.leb_gt in E. lia.
Qed.

Lemma rfind_append_none (c : ascii) (a b : string) :
  rfind c a = -1 -> rfind c b = -1 -> rfind c (a +:+ b) = -1.
Proof.
  intros Ha Hb. induction a as [|x a IH]; [exact Hb|].
  rewrite append_cons. pose proof (rfind_lower_bound c a) as Hlb.
  cbn [rfind] in *.
  destruct (0 <=? rfind c a) eqn:E.
  - apply Z.leb_le in E. lia.
  - apply Z.leb_gt in E. rewrite IH by lia.
    change (0 <=? -1) with false. cbv iota. exact Ha.
Qed.

Lemma drop_append (a b : string) : drop (String.length a) (a +:+ b) = b.
Proof.
  induction a as [|x a IH]; [now destruct b|].
  rewrite append_cons. exact IH.
Qed.

Lemma basename_plain_name (h : string) : rfind "/" h = -1 -> basename h = h.
Proof. unfold basename. intros ->. now destruct h. Qed.

Lemma basename_under (a h : string) :
  rfind "/" h = -1 -> basename (a +:+ "/" +:+ h) = h.
Proof.
  intros Hh. unfold basename.
  change (a +:+ "/" +:+ h) with (a +:+ String "/" h).
  rewrite (rfind_append_last _ _ _ Hh).
  replace (Z.to_nat (Z.of_nat (String.length a) + 1))
    with (String.length (a +:+ "/")) by (rewrite length_append; simpl; lia).
  change (a +:+ String "/" h) with (a +:+ "/" +:+ h).
  rewrite <- append_assoc. apply drop_append.
Qed.

Lemma basename_temp (h : string) :
  rfind "/" h = -1 -> basename ("temp/" +:+ h) = h.
Proof. exact (basename_under "temp" h). Qed.

Lemma splitext_no_dot (h : string) : rfind "." h = -1 -> splitext h = (h, "").
Proof.
  intros Hd. unfold splitext. rewrite Hd.
  pose proof (rfind_lower_bound "/" h).
  destruct (rfind "/" h <? -1) eqn:E; [|reflexivity].
  apply Z.ltb_lt in E. lia.
Qed.

Lemma temp_join (name : string) :
  startswith name "/" = false -> join "temp" name = "temp/" +:+ name.
Proof. intros H. unfold join. now rewrite H. Qed.

Lemma replace_under_temp (p : string) :
  replace ("temp/" +:+ p) ".webp" "_lossless.webp"
  = "temp/" +:+ replace p ".webp" "_lossless.webp".
Proof. reflexivity. Qed.

Lemma temp_not_config (p : string) : "temp/" +:+ p <> "config.yaml".
Proof. discriminate. Qed.

(** The paths that [compress_image] works on for a download. *)
Lemma download_paths (h : string) :
  hexdigest h = true ->
  basename h = h
  /\ fst (splitext (basename ("temp/" +:+ h))) = h
  /\ join "temp" (h +:+ ".webp") = "temp/" +:+ h +:+ ".webp"
  /\ basename ("temp/" +:+ h +:+ ".webp") = h +:+ ".webp".
Proof.
  intros Hh.
  assert (rfind "/" h = -1) as Hsep by now apply rfind_hexdigest.
  assert (rfind "." h = -1) as Hdot by now apply rfind_hexdigest.
  assert (basename ("temp/" +:+ h) = h) as Hbase
    by exact (basename_under "temp" h Hsep).
  split; [now apply basename_plain_name|].
  split; [now rewrite Hbase, splitext_no_dot|].
  split.
  - apply temp_join.
    pose proof (webp_name_relative ("temp/" +:+ h)) as H.
    now rewrite Hbase, splitext_no_dot in H.
  - apply (basename_under "temp" (h +:+ ".webp")).
    now apply rfind_append_none.
Qed.

(** C4, as the code has it.  For an argument that is a URL outside the
    exempt hosts and whose content is an image other than a GIF, one pass of
    the loop downloads the content to [temp/<md5(url)>], compresses it to
    [temp/<md5(url)>.webp], uploads the compressed bytes under the name
    [<md5(url)>.webp], prints exactly one line, the public URL, and removes
    the compressed file.  The lossless intermediate is gone as well.  The
    downloaded file [temp/<md5(url)>] is still there: line 155 removes the
    compressed file only. *)
Theorem remote_image_uploaded_download_kept (base_dir img_url : string)
    (st st2 : state) (r0 r : response) (image : Image)
    (lossless lossy : list Byte.byte) (token : pyval)
    (info : gmap string pyval) (id : string) :
  startswith img_url "http" = true ->
  already_hosted img_url = false ->
  hexdigest (md5_hexdigest img_url) = true ->
  remote (net_log st) (Get img_url) = Some r0 ->
  decode (content r0) = Some image ->
  image_format image <> "GIF" ->
  encode_webp_lossless image = Some lossless ->
  encode_webp_lossy 80 image = Some lossy ->
  let local := "temp/" +:+ md5_hexdigest img_url in
  let output_path := "temp/" +:+ md5_hexdigest img_url +:+ ".webp" in
  let lossless_output_path := replace output_path ".webp" "_lossless.webp" in
  let kept := if Z.of_nat (length lossless) <? Z.of_nat (length lossy)
              then lossless else lossy in
  get_access_token (compressed img_url r0 lossless lossy st)
  = Returns token st2 ->
  let req := upload_request (base_dir +:+ md5_hexdigest img_url +:+ ".webp")
               token kept in
  remote (net_log st2) req = Some r ->
  json r = Some info ->
  info !! "id" = Some (PStr id) ->
  exists st',
    loop_body base_dir img_url st = Returns Continue st'
    /\ stdout st' = stdout st ++ [img_url_base +:+ lower id]
    /\ net_log st' = net_log st2 ++ [req]
    /\ (net_log st2 = net_log st ++ [Get img_url]
        \/ exists data,
             net_log st2 = net_log st ++ [Get img_url; Post TOKEN_URL data])
    /\ fs st' !! output_path = None
    /\ fs st' !! lossless_output_path = None
    /\ fs st' !! local = Some (content r0).
Proof.
  intros Hhttp Hhost Hhex Hget Hdec Hfmt Hll Hly
    local output_path lossless_output_path kept Htok req Hrem Hjson Hid.
  destruct (download_paths _ Hhex) as (Hb1 & Hstem & Hjoin & Hb2).
  fold local in Hstem.
  (* the paths *)
  assert (lossless_output_path <> output_path) as Hne.
  { unfold lossless_output_path, output_path. rewrite <- Hjoin.
    apply lossless_path_ne. }
  assert (local <> output_path) as Hlo.
  { intros E. apply (f_equal String.length) in E.
    unfold local, output_path in E. rewrite !length_append in E. simpl in E. lia. }
  assert (local <> lossless_output_path) as Hll'.
  { intros E. apply (f_equal String.length) in E.
    pose proof (lossless_path_longer "temp" (md5_hexdigest img_url)) as Hlen.
    rewrite Hjoin in Hlen. fold output_path in Hlen.
    fold lossless_output_path in Hlen.
    unfold local in E. unfold output_path in Hlen at 1.
    rewrite !length_append in *. simpl in *. lia. }
  (* the download *)
  assert (acquire img_url st
          = Returns (Some local) (downloaded img_url local r0 st)) as Hacq.
  { unfold acquire. rewrite Hhttp, Hhost, Hb1. fold local.
    unfold write_file, http, bind, ret.
    cbn [net_log set_fs fs stdout clock_reads config]. now rewrite Hget. }
  (* the compression *)
  assert (compress_image local "temp" 80 (downloaded img_url local r0 st)
          = Returns output_path (compressed img_url r0 lossless lossy st))
    as Hcomp.
  { erewrite compress_image_webp_run; [| |eassumption..].
    2:{ cbn [fs downloaded]. apply lookup_insert_eq. }
    rewrite Hstem, Hjoin. reflexivity. }
  (* the token leaves the files under temp/ alone *)
  pose proof (get_access_token_returns _ _ _ Htok)
    as (Hout2 & Hfs2 & Hlog2 & _ & _).
  assert (fs st2 !! output_path = Some kept) as Hkept.
  { rewrite Hfs2 by apply temp_not_config.
    cbn [compressed fs set_fs]. now apply webp_files_output. }
  (* the upload and the end of the pass *)
  eexists. split.
  { rewrite loop_body_halves.
    rewrite (bind_Returns _ _ _ _ _ Hacq). unfold process.
    rewrite (bind_Returns _ _ _ _ _ Hcomp). cbv zeta.
    unfold output_path at 1. rewrite Hb2.
    erewrite bind_Returns; cycle 1.
    { eapply upload_by_path_run; [exact Htok | exact Hkept | exact Hrem
                                 | exact Hjson]. }
    unfold getitem, py_lower, print, remove, bind, ret.
    rewrite Hid. cbn [fs]. rewrite Hkept. reflexivity. }
  cbn [stdout net_log fs set_fs].
  split; [now rewrite Hout2|].
  split; [reflexivity|].
  split.
  { destruct Hlog2 as [-> | [data ->]]; [now left | right; exists data].
    cbn [compressed downloaded net_log set_fs]. now rewrite <- app_assoc. }
  split; [apply lookup_delete_eq|].
  split.
  - rewrite lookup_delete_ne by congruence.
    rewrite Hfs2.
    + cbn [compressed fs set_fs]. now apply webp_files_lossless.
    + unfold lossless_output_path, output_path.
      rewrite replace_under_temp. apply temp_not_config.
  - rewrite lookup_delete_ne by congruence.
    rewrite Hfs2 by apply temp_not_config.
    cbn [compressed fs set_fs].
    rewrite webp_files_other by assumption.
    cbn [downloaded fs]. apply lookup_insert_eq.
Qed.

(** A GIF that is not yet the file [output_dir/<name>] is copied there
    as it is. *)
Lemma compress_image_gif_copies (input_path output_dir : string) (quality : Z)
    (st : state) (b : list Byte.byte) (image : Image) :
  fs st !! input_path = Some b ->
  decode b = Some image ->
  image_format image = "GIF" ->
  let output_path := join output_dir (basename input_path) in
  input_path <> output_path ->
  exists st',
    compress_image input_path output_dir quality st = Returns output_path st'
    /\ fs st' !! output_path = Some b
    /\ (forall p, p <> output_path -> fs st' !! p = fs st !! p).
Proof.
  intros Hin Hdec Hfmt output_path Hne.
  rewrite (compress_image_gif_run _ _ _ _ _ _ Hin Hdec Hfmt).
  fold output_path. apply String.eqb_neq in Hne. rewrite Hne.
  eexists. split; [reflexivity|]. cbn [fs set_fs].
  split; [apply lookup_insert_eq|].
  intros p Hp. now rewrite lookup_insert_ne by congruence.
Qed.

(** C5, where the code leaves it.  A GIF that already is the file
    [output_dir/<name>] is not returned: [shutil.copy] raises
    [SameFileError], and the state is left as it was. *)
Theorem compress_image_gif_in_place_raises (input_path output_dir : string)
    (quality : Z) (st : state) (b : list Byte.byte) (image : Image) :
  fs st !! input_path = Some b ->
  decode b = Some image ->
  image_format image = "GIF" ->
  input_path = join output_dir (basename input_path) ->
  compress_image input_path output_dir quality st
  = Raises (SameFileError input_path input_path) st.
Proof.
  intros Hin Hdec Hfmt Hsame.
  rewrite (compress_image_gif_run _ _ _ _ _ _ Hin Hdec Hfmt).
  rewrite <- Hsame. now rewrite String.eqb_refl.
Qed.

(** This is what every GIF given by URL runs into: it is downloaded to
    [temp/<name>] and compressed into [temp], so the pass of the loop ends
    with [SameFileError], nothing uploaded and nothing printed. *)
Lemma remote_gif_raises (base_dir img_url : string) (st : state)
    (r0 : response) (image : Image) :
  startswith img_url "http" = true ->
  already_hosted img_url = false ->
  remote (net_log st) (Get img_url) = Some r0 ->
  decode (content r0) = Some image ->
  image_format image = "GIF" ->
  let local := "temp/" +:+ basename (md5_hexdigest img_url) in
  loop_body base_dir img_url st
  = Raises (SameFileError local local) (downloaded img_url local r0 st).
Proof.
  intros Hhttp Hhost Hget Hdec Hfmt local.
  pose proof (basename_no_sep (md5_hexdigest img_url)) as Hsep.
  assert (join "temp" (basename local) = local) as Hjoin.
  { unfold local. rewrite (basename_temp _ Hsep).
    apply temp_join. unfold startswith.
    destruct (basename (md5_hexdigest img_url)) as [|x t]; [reflexivity|].
    apply rfind_none_head in Hsep. cbn [String.prefix].
    destruct (ascii_dec "/" x) as [<-|]; [discriminate | reflexivity]. }
  rewrite loop_body_halves.
  erewrite bind_Returns; cycle 1.
  { unfold acquire. rewrite Hhttp, Hhost. fold local.
    unfold write_file, http, bind, ret.
    cbn [net_log set_fs fs stdout clock_reads config]. now rewrite Hget. }
  unfold process. apply bind_Raises.
  rewrite (compress_image_gif_run _ _ _ _ (content r0) image); trivial.
  - cbv zeta. rewrite Hjoin. now rewrite String.eqb_refl.
  - cbn [downloaded fs]. apply lookup_insert_eq.
Qed.

(** *** The configuration file stays in step with the record *)

Lemma basename_relative (p : string) : startswith (basename p) "/" = false.
Proof.
  pose proof (basename_no_sep p) as Hsep. unfold startswith.
  destruct (basename p) as [|x t]; [reflexivity|].
  apply rfind_none_head in Hsep. cbn [String.prefix].
  destruct (ascii_dec "/" x) as [<-|]; [discriminate | reflexivity].
Qed.

(** A state that differs from [st] in files other than the configuration
    file, or in what was printed or sent, is in step if [st] is. *)
Lemma in_sync_frame (st st' : state) :
  fs st' !! "config.yaml" = fs st !! "config.yaml" ->
  config st' = config st ->
  in_sync st -> in_sync st'.
Proof. unfold in_sync. now intros -> ->. Qed.

Lemma compress_image_temp_in_sync (input_path : string) (quality : Z)
    (st st' : state) (path : string) :
  compress_image input_path "temp" quality st = Returns path st' ->
  path <> "config.yaml"
  /\ fs st' !! "config.yaml" = fs st !! "config.yaml"
  /\ config st' = config st.
Proof.
  intros H.
  apply compress_image_returns in H as (_ & _ & _ & Hcfg & _ & Hpath & Hfs).
  assert (exists name, path = "temp/" +:+ name) as [name ->].
  { destruct Hpath as [-> | ->]; eexists; apply temp_join;
      [apply basename_relative | apply webp_name_relative]. }
  split; [apply temp_not_config|]. split; [|exact Hcfg].
  apply Hfs.
  - intros E. symmetry in E. now apply temp_not_config in E.
  - rewrite replace_under_temp.
    intros E. symmetry in E. now apply temp_not_config in E.
Qed.

Lemma upload_by_path_in_sync (drive_file_path file_path : string)
    (st st' : state) (info : gmap string pyval) :
  upload_by_path drive_file_path file_path st = Returns info st' ->
  in_sync st -> in_sync st'.
Proof.
  intros H Hsync.
  apply upload_by_path_returns in H
    as (st1 & token & body & r & Htok & _ & _ & _ & ->).
  apply get_access_token_returns in Htok as (_ & _ & _ & Hkeep & _).
  exact (Hkeep Hsync).
Qed.

Lemma loop_body_in_sync (base_dir img_path : string) (st st' : state)
    (f : flow) :
  loop_body base_dir img_path st = Returns f st' ->
  in_sync st -> in_sync st'.
Proof.
  rewrite loop_body_halves. intros H Hsync.
  apply bind_inv in H as ([local|] & st0 & Ha & H).
  - assert (in_sync st0) as Hsync0.
    { apply acquire_returns in Ha
        as [(_ & _ & ->) | (_ & _ & -> & r0 & _ & ->)]; [exact Hsync|].
      revert Hsync. apply in_sync_frame; [|reflexivity].
      cbn [downloaded fs].
      rewrite !lookup_insert_ne; [reflexivity|apply temp_not_config..]. }
    apply process_returns in H
      as (path & st1 & st2 & token & body & r & info & id
          & Hc & Htok & _ & _ & _ & _ & _ & ->).
    apply compress_image_temp_in_sync in Hc as (Hpath & Hfs1 & Hcfg1).
    apply get_access_token_returns in Htok as (_ & _ & _ & Hkeep & _).
    assert (in_sync st2) as Hsync2
      by (apply Hkeep; revert Hsync0; now apply in_sync_frame).
    revert Hsync2. apply in_sync_frame; [|reflexivity].
    cbn [fs]. now rewrite lookup_delete_ne.
  - apply acquire_break in Ha as (_ & _ & ->).
    unfold ret in H. injection H as _ <-. exact Hsync.
Qed.

Lemma for_each_in_sync (base_dir : string) (args : list string)
    (st st' : state) (f : flow) :
  for_each base_dir args st = Returns f st' ->
  in_sync st -> in_sync st'.
Proof.
  revert st. induction args as [|a args IH]; intros st H Hsync.
  - unfold for_each, ret in H. now injection H as _ <-.
  - cbn [for_each] in H.
    apply bind_inv in H as (f0 & st0 & Hbody & H).
    apply loop_body_in_sync in Hbody; [|exact Hsync].
    destruct f0; [now apply (IH st0)|].
    unfold ret in H. now injection H as _ <-.
Qed.

(** C6.  A refresh that the token endpoint answers returns with the record
    holding the access token and the refresh token of the answer and the
    expiry [now + expires_in], [now] being the clock reading of the refresh;
    the other fields are untouched, and the configuration file holds the
    whole new record before the call returns.  From then on the file stays
    equal to the record in memory through every operation that returns: the
    token accessor, an upload, and every pass of the argument loop. *)
Theorem refresh_access_token_persists (st : state)
    (data : list (string * pyval)) (r : response) (j : gmap string pyval)
    (access_token refresh_token : pyval) (expires_in : Z) :
  refresh_form (config st) = Some data ->
  remote (net_log st) (Post TOKEN_URL data) = Some r ->
  json r = Some j ->
  j !! "access_token" = Some access_token ->
  j !! "refresh_token" = Some refresh_token ->
  j !! "expires_in" = Some (PInt expires_in) ->
  exists st',
    refresh_access_token st = Returns tt st'
    /\ config st' !! "access_token" = Some access_token
    /\ config st' !! "refresh_token" = Some refresh_token
    /\ config st' !! "expires_at"
       = Some (PInt (clock (clock_reads st) + expires_in))
    /\ (forall key, key <> "access_token" -> key <> "refresh_token" ->
                    key <> "expires_at" -> config st' !! key = config st !! key)
    /\ fs st' !! "config.yaml" = Some (yaml_safe_dump (config st'))
    /\ (forall p, p <> "config.yaml" -> fs st' !! p = fs st !! p)
    /\ (forall token st'',
          get_access_token st' = Returns token st'' -> in_sync st'')
    /\ (forall drive_file_path file_path info st'',
          upload_by_path drive_file_path file_path st' = Returns info st'' ->
          in_sync st'')
    /\ (forall base_dir args f st'',
          for_each base_dir args st' = Returns f st'' -> in_sync st'').
Proof.
  intros Hform Hrem Hjson Hat Hrt Hex.
  eexists. split.
  { exact (refresh_access_token_run _ _ _ _ _ _ _
             Hform Hrem Hjson Hat Hrt Hex). }
  match goal with |- context [in_sync] =>
    match goal with |- context [get_access_token ?s] =>
      assert (in_sync s) as Hsync
        by (unfold in_sync; cbn [fs config]; apply lookup_insert_eq)
    end
  end.
  cbn [config fs]. unfold refreshed_config.
  split; [now rewrite !lookup_insert_ne, lookup_insert_eq by discriminate|].
  split; [now rewrite lookup_insert_ne, lookup_insert_eq by discriminate|].
  split; [apply lookup_insert_eq|].
  split; [intros key H1 H2 H3; now rewrite !lookup_insert_ne by congruence|].
  split; [apply lookup_insert_eq|].
  split; [intros p Hp; now rewrite lookup_insert_ne by congruence|].
  split.
  { intros token st'' H.
    apply get_access_token_returns in H as (_ & _ & _ & Hkeep & _).
    exact (Hkeep Hsync). }
  split.
  { intros drive_file_path file_path info st'' H.
    exact (upload_by_path_in_sync _ _ _ _ _ H Hsync). }
  intros base_dir args f st'' H.
  exact (for_each_in_sync _ _ _ _ _ H Hsync).
Qed.

(** ** More on the class [Drive] *)


(** X2.  A refresh that the token endpoint does not answer with an access
    token (no connection, a body that is no JSON object, a document without
    [access_token]) raises after its one request; the record in memory and
    every file are as before. *)
Theorem refresh_access_token_rejected (st : state)
    (data : list (string * pyval)) :
  refresh_form (config st) = Some data ->
  let answer := remote (net_log st) (Post TOKEN_URL data) in
  (answer = None
   \/ exists r, answer = Some r
                /\ (json r = None
                    \/ exists j, json r = Some j /\ j !! "access_token" = None)) ->
  exists e,
    refresh_access_token st
    = Raises e (State (fs st) (stdout st) (net_log st ++ [Post TOKEN_URL data])
                      (clock_reads st) (config st))
    /\ (e = ConnectionError \/ e = JSONDecodeError
        \/ e = KeyError "access_token").
Proof.
  intros Hform answer Hanswer. unfold refresh_form in Hform.
  destruct (config st !! "client_id") as [cid|] eqn:Hcid; [|discriminate].
  destruct (config st !! "client_secret") as [sec|] eqn:Hsec; [|discriminate].
  destruct (config st !! "refresh_token") as [old|] eqn:Hold; [|discriminate].
  injection Hform as <-. subst answer.
  unfold refresh_access_token, get_config, http, response_json, getitem,
    config_setitem, time_time, py_add, write_file, bind, ret, raise.
  rewrite Hcid, Hsec, Hold. cbv beta iota.
  destruct Hanswer as [-> | (r & -> & [Hjson | (j & Hjson & Hat)])].
  - exists ConnectionError. auto.
  - rewrite Hjson. exists JSONDecodeError. auto.
  - rewrite Hjson. cbv beta iota. rewrite Hat. exists (KeyError "access_token"). auto.
Qed.

(** X3.  The record is updated field by field (lines 83-85): when the answer
    holds an access token but no refresh token, the call raises
    [KeyError] with the new access token already in the record in memory,
    while the configuration file still holds what it held. *)
Theorem refresh_access_token_half_done (st : state)
    (data : list (string * pyval)) (r : response) (j : gmap string pyval)
    (access_token : pyval) :
  refresh_form (config st) = Some data ->
  remote (net_log st) (Post TOKEN_URL data) = Some r ->
  json r = Some j ->
  j !! "access_token" = Some access_token ->
  j !! "refresh_token" = None ->
  exists st',
    refresh_access_token st = Raises (KeyError "refresh_token") st'
    /\ config st' = <["access_token" := access_token]> (config st)
    /\ fs st' = fs st
    /\ net_log st' = net_log st ++ [Post TOKEN_URL data].
Proof.
  intros Hform Hrem Hjson Hat Hrt. unfold refresh_form in Hform.
  destruct (config st !! "client_id") as [cid|] eqn:Hcid; [|discriminate].
  destruct (config st !! "client_secret") as [sec|] eqn:Hsec; [|discriminate].
  destruct (config st !! "refresh_token") as [old|] eqn:Hold; [|discriminate].
  injection Hform as <-.
  unfold refresh_access_token, get_config, http, response_json, getitem,
    config_setitem, time_time, py_add, write_file, bind, ret, raise.
  rewrite Hcid, Hsec, Hold. cbv beta iota.
  rewrite Hrem, Hjson. cbv beta iota. rewrite Hat, Hrt.
  eexists. split; [reflexivity|]. now cbn.
Qed.

(** What a refresh changes, whatever its outcome. *)
Lemma refresh_access_token_effects (st : state) :
  let st' := state_of (refresh_access_token st) in
  stdout st' = stdout st
  /\ (forall p, p <> "config.yaml" -> fs st' !! p = fs st !! p)
  /\ (net_log st' = net_log st
      \/ exists data, net_log st' = net_log st ++ [Post TOKEN_URL data]).
Proof.
  cbv zeta. set (r := refresh_access_token st).
  assert (refresh_access_token st = r) as Hr by reflexivity.
  clearbody r. revert Hr.
  unfold refresh_access_token, get_config, http, response_json, getitem,
    config_setitem, time_time, py_add, write_file, bind, ret, raise.
  assert (forall (e : exn) (log : list request),
            (log = net_log st
             \/ exists data, log = net_log st ++ [Post TOKEN_URL data]) ->
            forall cfg n,
              Raises e (State (fs st) (stdout st) log n cfg) = r ->
              stdout (state_of r) = stdout st
              /\ (forall p, p <> "config.yaml" ->
                            fs (state_of r) !! p = fs st !! p)
              /\ (net_log (state_of r) = net_log st
                  \/ exists data,
                       net_log (state_of r)
                       = net_log st ++ [Post TOKEN_URL data])) as Hraise.
  { intros e log Hlog cfg n <-. cbn. auto. }
  destruct (config st !! "client_id") as [cid|];
    [|destruct st; apply Hraise; now left].
  destruct (config st !! "client_secret") as [sec|];
    [|destruct st; apply Hraise; now left].
  destruct (config st !! "refresh_token") as [old|];
    [|destruct st; apply Hraise; now left].
  cbv beta iota.
  destruct (remote (net_log st) _) as [a|]; [|apply Hraise; eauto].
  destruct (json a) as [j|]; [|apply Hraise; eauto].
  cbv beta iota.
  destruct (j !! "access_token") as [access_token|]; [|apply Hraise; eauto].
  destruct (j !! "refresh_token") as [refresh_token|]; [|apply Hraise; eauto].
  destruct (j !! "expires_in") as [[s|expires_in|]|];
    try (apply Hraise; eauto).
  intros <-. cbn [state_of stdout fs net_log set_fs set_config].
  split; [reflexivity|].
  split; [intros p Hp; now rewrite lookup_insert_ne by congruence|].
  eauto.
Qed.

(** What the accessor changes, whatever its outcome. *)
Lemma get_access_token_outcome (st : state) :
  let st' := state_of (get_access_token st) in
  stdout st' = stdout st
  /\ (forall p, p <> "config.yaml" -> fs st' !! p = fs st !! p)
  /\ (net_log st' = net_log st
      \/ exists data, net_log st' = net_log st ++ [Post TOKEN_URL data])
  /\ upload_calls (net_log st') = upload_calls (net_log st).
Proof.
  cbv zeta. set (r := get_access_token st).
  assert (stdout (state_of r) = stdout st
          /\ (forall p, p <> "config.yaml" -> fs (state_of r) !! p = fs st !! p)
          /\ (net_log (state_of r) = net_log st
              \/ exists data,
                   net_log (state_of r) = net_log st ++ [Post TOKEN_URL data]))
    as (H1 & H2 & H3).
  { assert (get_access_token st = r) as Hr by reflexivity.
    clearbody r. revert Hr. unfold get_access_token.
    unfold get_config at 1, getitem at 1, bind at 1 2.
    destruct (config st !! "expires_at") as [[s|expires_at|]|];
      try (intros <-; cbn; now auto).
    unfold ret at 1, time_time, py_lt, bind at 1 2.
    destruct (expires_at <? clock (clock_reads st) - 60).
    - unfold ret at 1, bind at 1.
      pose proof (refresh_access_token_effects
                    (State (fs st) (stdout st) (net_log st)
                           (S (clock_reads st)) (config st))) as Hx.
      cbv zeta in Hx. cbn [stdout fs net_log] in Hx.
      destruct (refresh_access_token _) as [[] st1|e st1];
        cbn [state_of] in Hx; [|intros <-; exact Hx].
      unfold get_config, getitem, bind.
      destruct (config st1 !! "access_token"); intros <-; exact Hx.
    - unfold ret, get_config, getitem, bind. cbn [config].
      destruct (config st !! "access_token"); intros <-; cbn; auto. }
  split; [exact H1|]. split; [exact H2|]. split; [exact H3|].
  destruct H3 as [-> | [data ->]]; [reflexivity|].
  unfold upload_calls. rewrite List.filter_app, length_app. cbn. lia.
Qed.

(** X4.  Whatever the outcome of [get_access_token], returned or raised: it
    prints nothing, it leaves every file but the configuration file as it
    was, and it sends at most one request, which is a refresh and never an
    upload or a download. *)
Theorem get_access_token_effects (st : state) :
  let st' := state_of (get_access_token st) in
  stdout st' = stdout st
  /\ (forall p, p <> "config.yaml" -> fs st' !! p = fs st !! p)
  /\ (net_log st' = net_log st
      \/ exists data, net_log st' = net_log st ++ [Post TOKEN_URL data])
  /\ upload_calls (net_log st') = upload_calls (net_log st).
Proof. exact (get_access_token_outcome st). Qed.

(** X5.  The accessor reads [expires_at] before it reads the clock: a
    record without it raises [KeyError] in the state the call started in;
    a record whose [expires_at] is not an integer raises [TypeError] at the
    comparison of line 94, with nothing sent and nothing written. *)
Theorem get_access_token_bad_expiry (st : state) :
  (config st !! "expires_at" = None ->
   get_access_token st = Raises (KeyError "expires_at") st)
  /\ (forall v, config st !! "expires_at" = Some v ->
                (forall z, v <> PInt z) ->
                exists st',
                  get_access_token st = Raises TypeError st'
                  /\ fs st' = fs st /\ net_log st' = net_log st
                  /\ config st' = config st /\ stdout st' = stdout st).
Proof.
  split.
  - intros H.
    unfold get_access_token, get_config, getitem, bind, raise. now rewrite H.
  - intros v H Hv.
    unfold get_access_token, get_config, getitem, time_time, py_lt, bind,
      ret, raise.
    rewrite H. destruct v as [s|z|]; [|now destruct (Hv z)|];
      (eexists; split; [reflexivity|now cbn]).
Qed.

(** X6.  The header carries the token that is in the record when
    [generate_header] returns, so after a refresh it is the new one; the
    user agent is fixed. *)
Theorem generate_header_current_token (st st' : state)
    (headers : list (string * string)) :
  generate_header st = Returns headers st' ->
  exists token,
    config st' !! "access_token" = Some token
    /\ headers = [("Authorization", "Bearer " +:+ py_format token);
                  ("User-Agent", "Typora Image Uploader(lrhtony0@gmail.com)")].
Proof.
  unfold generate_header. intros H.
  apply bind_inv in H as (token & st1 & Htok & H).
  unfold ret in H. simplify_eq.
  apply get_access_token_returns in Htok as (_ & _ & _ & _ & Htok).
  now exists token.
Qed.

(** X7.  The file is opened after the header is made and before the request
    is sent (lines 113-115): an upload of a file that does not exist never
    returns and sends no upload; when the accessor has returned, with or
    without a refresh, the call raises [FileNotFoundError] in the state the
    accessor left. *)
Theorem upload_by_path_missing_file (drive_file_path file_path : string)
    (st : state) :
  fs st !! file_path = None ->
  file_path <> "config.yaml" ->
  (exists e st',
     upload_by_path drive_file_path file_path st = Raises e st'
     /\ upload_calls (net_log st') = upload_calls (net_log st)
     /\ stdout st' = stdout st)
  /\ (forall token st1,
        get_access_token st = Returns token st1 ->
        upload_by_path drive_file_path file_path st
        = Raises (FileNotFoundError file_path) st1).
Proof.
  intros Hfile Hne.
  pose proof (get_access_token_outcome st) as (Hout & Hfs & _ & Hup).
  unfold upload_by_path, generate_header.
  destruct (get_access_token st) as [token st1|e st1] eqn:Htok;
    cbn [state_of] in *.
  - assert (fs st1 !! file_path = None) as Hfile1 by now rewrite Hfs.
    assert (forall headers : list (string * string),
              bind (read_file file_path)
                (fun data =>
                   let* r := http (Put (GRAPH_URL +:+ "/me/drive/items/root:/"
                                        +:+ drive_file_path +:+ ":/content")
                                    headers data) in
                   response_json r) st1
              = Raises (FileNotFoundError file_path) st1) as Hread.
    { intros headers. unfold read_file, bind. now rewrite Hfile1. }
    split.
    + exists (FileNotFoundError file_path), st1. split; [|now split].
      unfold bind at 1 2. rewrite Htok. unfold ret at 1. apply Hread.
    + intros token' st1' [= <- <-].
      unfold bind at 1 2. rewrite Htok. unfold ret at 1. apply Hread.
  - split; [|discriminate].
    exists e, st1. split; [|now split].
    unfold bind at 1 2. now rewrite Htok.
Qed.

(** X8.  An upload that returns has sent exactly one upload, the last
    request of the log, after at most one refresh; its body is the content of
    the local file, its URL holds the path on the drive, its header the token
    of the record; the value returned is the JSON answer to it.  Nothing is
    printed and no file but the configuration file has changed. *)
Theorem upload_by_path_sends_one_upload (drive_file_path file_path : string)
    (st st' : state) (info : gmap string pyval) :
  upload_by_path drive_file_path file_path st = Returns info st' ->
  file_path <> "config.yaml" ->
  exists log token body r,
    net_log st' = log ++ [upload_request drive_file_path token body]
    /\ (log = net_log st \/ exists data, log = net_log st ++ [Post TOKEN_URL data])
    /\ fs st !! file_path = Some body
    /\ config st' !! "access_token" = Some token
    /\ remote log (upload_request drive_file_path token body) = Some r
    /\ json r = Some info
    /\ upload_calls (net_log st') = S (upload_calls (net_log st))
    /\ stdout st' = stdout st
    /\ (forall p, p <> "config.yaml" -> fs st' !! p = fs st !! p).
Proof.
  intros H Hne.
  apply upload_by_path_returns in H
    as (st1 & token & body & r & Htok & Hfile & Hrem & Hjson & ->).
  pose proof (get_access_token_outcome st) as (_ & _ & _ & Hup).
  rewrite Htok in Hup. cbn [state_of] in Hup.
  apply get_access_token_returns in Htok as (Hout & Hfs & Hlog & _ & Hcfg).
  exists (net_log st1), token, body, r. cbn [net_log config stdout fs].
  split; [reflexivity|]. split; [exact Hlog|].
  split; [now rewrite <- Hfs|]. split; [exact Hcfg|].
  split; [exact Hrem|]. split; [exact Hjson|].
  split.
  { unfold upload_calls in *. rewrite List.filter_app, length_app. cbn. lia. }
  split; [exact Hout|exact Hfs].
Qed.

(** X9.  A token that has just been refreshed is not refreshed again by the
    next call of the accessor, as long as the clock has not passed the new
    expiry by more than 60 seconds: the accessor returns the new token and
    sends nothing. *)
Theorem refresh_then_accessor (st : state)
    (data : list (string * pyval)) (r : response) (j : gmap string pyval)
    (access_token refresh_token : pyval) (expires_in : Z) :
  refresh_form (config st) = Some data ->
  remote (net_log st) (Post TOKEN_URL data) = Some r ->
  json r = Some j ->
  j !! "access_token" = Some access_token ->
  j !! "refresh_token" = Some refresh_token ->
  j !! "expires_in" = Some (PInt expires_in) ->
  clock (S (clock_reads st)) - 60 <= clock (clock_reads st) + expires_in ->
  exists st1 st2,
    refresh_access_token st = Returns tt st1
    /\ get_access_token st1 = Returns access_token st2
    /\ net_log st2 = net_log st ++ [Post TOKEN_URL data]
    /\ config st2 = config st1
    /\ fs st2 = fs st1.
Proof.
  intros Hform Hrem Hjson Hat Hrt Hex Hclock.
  eexists _, _. split.
  { exact (refresh_access_token_run _ _ _ _ _ _ _
             Hform Hrem Hjson Hat Hrt Hex). }
  split.
  { apply get_access_token_fresh
      with (expires_at := clock (clock_reads st) + expires_in).
    - cbn [config]. unfold refreshed_config. apply lookup_insert_eq.
    - cbn [clock_reads]. exact Hclock.
    - cbn [config]. unfold refreshed_config.
      now rewrite !lookup_insert_ne, lookup_insert_eq by discriminate. }
  now cbn.
Qed.

(** ** More about strings and paths *)

(** *** [replace] with the pattern of line 40 *)

Lemma replace_webp_nil : replace "" ".webp" "_lossless.webp" = "".
Proof. reflexivity. Qed.

Lemma replace_webp_match (t : string) :
  replace (".webp" +:+ t) ".webp" "_lossless.webp"
  = "_lossless.webp" +:+ replace t ".webp" "_lossless.webp".
Proof.
  pose proof (prefix_append ".webp" t) as E. unfold replace.
  change (".webp" +:+ t)
    with (String "." (String "w" (String "e" (String "b" (String "p" t)))))
    in *.
  cbn [replace_from]. rewrite E. reflexivity.
Qed.

Lemma replace_webp_skip (c : ascii) (s : string) :
  String.prefix ".webp" (String c s) = false ->
  replace (String c s) ".webp" "_lossless.webp"
  = String c (replace s ".webp" "_lossless.webp").
Proof.
  intros H. unfold replace. cbn [replace_from]. now rewrite H.
Qed.

(** Induction along the scan of [replace]. *)
Lemma replace_webp_ind (P : string -> Prop) :
  P "" ->
  (forall t, P t -> P (".webp" +:+ t)) ->
  (forall c s, String.prefix ".webp" (String c s) = false -> P s ->
               P (String c s)) ->
  forall s, P s.
Proof.
  intros Hnil Hmatch Hskip s.
  remember (String.length s) as n eqn:Hn. revert s Hn.
  induction n as [n IH] using lt_wf_ind. intros s Hn.
  destruct s as [|c s]; [exact Hnil|].
  destruct (String.prefix ".webp" (String c s)) eqn:E.
  - destruct (prefix_split _ _ E) as [t Ht]. rewrite Ht.
    apply Hmatch. apply (IH (String.length t)); [|reflexivity].
    subst n. rewrite Ht, length_append. simpl. lia.
  - apply Hskip; [exact E|].
    apply (IH (String.length s)); [|reflexivity]. subst n. simpl. lia.
Qed.

Lemma replace_webp_length (s : string) :
  (String.length s <= String.length (replace s ".webp" "_lossless.webp"))%nat.
Proof.
  pose proof (replace_from_length ".webp" "_lossless.webp"
                ltac:(simpl; lia) s 0) as H.
  unfold replace. lia.
Qed.

(** A match does not reach over a character that is none of [w], [e], [b]
    and [p]. *)
Lemma prefix_webp_extend (c x : ascii) (s t : string) :
  x <> "w"%char -> x <> "e"%char -> x <> "b"%char -> x <> "p"%char ->
  String.prefix ".webp" (String c s) = false ->
  String.prefix ".webp" (String c (s +:+ String x t)) = false.
Proof.
  intros Hw He Hb Hp.
  destruct s as [|a1 [|a2 [|a3 [|a4 s]]]];
    rewrite ?append_cons, ?append_nil; cbn [String.prefix];
    repeat (destruct (ascii_dec _ _) as [?|?]; try reflexivity;
            try congruence; subst).
  intros H. destruct s; discriminate H.
Qed.

(** [replace] works on the two sides of such a character one by one. *)
Lemma replace_webp_app (x : ascii) (t : string) :
  x <> "w"%char -> x <> "e"%char -> x <> "b"%char -> x <> "p"%char ->
  forall a,
    replace (a +:+ String x t) ".webp" "_lossless.webp"
    = replace a ".webp" "_lossless.webp"
      +:+ replace (String x t) ".webp" "_lossless.webp".
Proof.
  intros Hw He Hb Hp.
  apply (replace_webp_ind
           (fun a => replace (a +:+ String x t) ".webp" "_lossless.webp"
                     = replace a ".webp" "_lossless.webp"
                       +:+ replace (String x t) ".webp" "_lossless.webp")).
  - reflexivity.
  - intros a IH. rewrite append_assoc, !replace_webp_match, IH.
    now rewrite append_assoc.
  - intros c s Hc IH. rewrite append_cons.
    rewrite replace_webp_skip by now apply prefix_webp_extend.
    rewrite IH, (replace_webp_skip c s Hc). reflexivity.
Qed.

Lemma replace_webp_slash (a b : string) :
  replace (a +:+ "/" +:+ b) ".webp" "_lossless.webp"
  = replace a ".webp" "_lossless.webp" +:+ "/"
    +:+ replace b ".webp" "_lossless.webp".
Proof.
  change (a +:+ "/" +:+ b) with (a +:+ String "/" b).
  rewrite replace_webp_app by discriminate. reflexivity.
Qed.

Lemma replace_webp_suffix (a : string) :
  replace (a +:+ ".webp") ".webp" "_lossless.webp"
  = replace a ".webp" "_lossless.webp" +:+ "_lossless.webp".
Proof.
  change (a +:+ ".webp") with (a +:+ String "." "webp").
  rewrite replace_webp_app by discriminate.
  change (String "." "webp") with (".webp" +:+ "").
  now rewrite replace_webp_match.
Qed.

(** *** [rfind] and [basename] *)

Lemma rfind_append_inv (c : ascii) (a b : string) :
  rfind c (a +:+ b) = -1 -> rfind c a = -1 /\ rfind c b = -1.
Proof.
  induction a as [|x a IH]; [now rewrite append_nil|].
  rewrite append_cons. cbn [rfind].
  pose proof (rfind_lower_bound c (a +:+ b)).
  destruct (0 <=? rfind c (a +:+ b)) eqn:E.
  - apply Z.leb_le in E. lia.
  - apply Z.leb_gt in E. intros Hx.
    destruct IH as [Ha Hb]; [lia|]. rewrite Ha.
    change (0 <=? -1) with false. cbv iota. now split.
Qed.

Lemma replace_webp_no_sep (s : string) :
  rfind "/" s = -1 -> rfind "/" (replace s ".webp" "_lossless.webp") = -1.
Proof.
  revert s.
  apply (replace_webp_ind
           (fun s => rfind "/" s = -1 ->
                     rfind "/" (replace s ".webp" "_lossless.webp") = -1)).
  - reflexivity.
  - intros t IH H. apply rfind_append_inv in H as [_ H].
    rewrite replace_webp_match. apply rfind_append_none; [reflexivity | auto].
  - intros c s Hc IH H. rewrite (replace_webp_skip c s Hc).
    pose proof (rfind_none_head _ _ _ H) as Hhead.
    change (String c s) with (String c "" +:+ s) in H.
    apply rfind_append_inv in H as [_ H].
    cbn [rfind]. rewrite (IH H). change (0 <=? -1) with false. cbv iota.
    now rewrite Hhead.
Qed.

(** A string is what comes before its last occurrence of [c], then [c],
    then what comes after. *)
Lemma split_at_rfind (c : ascii) (s : string) :
  0 <= rfind c s ->
  s = take (Z.to_nat (rfind c s)) s
      +:+ String c (drop (Z.to_nat (rfind c s + 1)) s).
Proof.
  induction s as [|a s IH]; [cbn; lia|].
  pose proof (rfind_lower_bound c s) as Hlb.
  cbn [rfind]. destruct (0 <=? rfind c s) eqn:E.
  - apply Z.leb_le in E. intros _.
    replace (Z.to_nat (rfind c s + 1)) with (S (Z.to_nat (rfind c s))) by lia.
    replace (Z.to_nat (rfind c s + 1 + 1))
      with (S (Z.to_nat (rfind c s + 1))) by lia.
    cbn [take drop]. rewrite append_cons. f_equal. now apply IH.
  - destruct (Ascii.eqb_spec a c) as [->|]; [|lia]. intros _. reflexivity.
Qed.

Lemma basename_split (s : string) :
  (rfind "/" s = -1 /\ basename s = s)
  \/ exists a, s = a +:+ "/" +:+ basename s.
Proof.
  pose proof (rfind_lower_bound "/" s).
  destruct (Z.eq_dec (rfind "/" s) (-1)) as [E|E].
  - left. split; [exact E|]. now apply basename_plain_name.
  - right. exists (take (Z.to_nat (rfind "/" s)) s).
    unfold basename. apply split_at_rfind. lia.
Qed.

(** [replace] and [basename] commute: the pattern and its replacement hold
    no slash. *)
Lemma basename_replace_webp (s : string) :
  basename (replace s ".webp" "_lossless.webp")
  = replace (basename s) ".webp" "_lossless.webp".
Proof.
  destruct (basename_split s) as [[Hsep ->] | [a Hs]].
  - apply basename_plain_name. now apply replace_webp_no_sep.
  - rewrite Hs at 1. rewrite replace_webp_slash.
    apply basename_under. apply replace_webp_no_sep, basename_no_sep.
Qed.

(** *** [take], [drop] and [endswith] *)

Lemma take_drop (n : nat) (s : string) : take n s +:+ drop n s = s.
Proof.
  revert n. induction s as [|c s IH]; intros [|n]; try reflexivity.
  cbn [take drop]. rewrite append_cons. now rewrite IH.
Qed.

Lemma length_drop (n : nat) (s : string) :
  String.length (drop n s) = (String.length s - n)%nat.
Proof.
  revert n. induction s as [|c s IH]; intros [|n]; try reflexivity.
  cbn [drop String.length]. rewrite IH. lia.
Qed.

Lemma take_all (n : nat) (s : string) :
  (String.length s <= n)%nat -> take n s = s.
Proof.
  revert n. induction s as [|c s IH]; intros [|n] H; try reflexivity.
  - simpl in H. lia.
  - cbn [take]. rewrite IH; [reflexivity | simpl in H; lia].
Qed.

Lemma take_append (a b : string) : take (String.length a) (a +:+ b) = a.
Proof.
  induction a as [|c a IH]; [now destruct b|].
  rewrite append_cons. cbn [String.length take]. now rewrite IH.
Qed.

Lemma substring_take_drop (m k : nat) (s : string) :
  String.substring m k s = take k (drop m s).
Proof.
  revert m k. induction s as [|c s IH]; intros [|m] [|k]; try reflexivity.
  - cbn [String.substring drop take]. now rewrite (IH 0%nat k).
  - cbn [String.substring drop]. now rewrite IH.
  - cbn [String.substring drop]. now rewrite IH.
Qed.

(** [s.endswith(suf)] holds exactly when [s] ends with [suf]. *)
Lemma endswith_split (s suf : string) :
  endswith s suf = true -> exists a, s = a +:+ suf.
Proof.
  unfold endswith.
  destruct (String.length suf <=? String.length s)%nat eqn:E; [|discriminate].
  apply Nat.leb_le in E. intros H. apply String.eqb_eq in H.
  rewrite substring_take_drop in H.
  rewrite take_all in H by (rewrite length_drop; lia).
  exists (take (String.length s - String.length suf) s).
  rewrite <- H at 2. symmetry. apply take_drop.
Qed.

Lemma rfind_take (c : ascii) (n : nat) (s : string) :
  rfind c s = -1 -> rfind c (take n s) = -1.
Proof.
  intros H. rewrite <- (take_drop n s) in H.
  now apply rfind_append_inv in H.
Qed.

(** *** [join], [basename] and [splitext] together *)

Lemma basename_join (output_dir name : string) :
  rfind "/" name = -1 -> basename (join output_dir name) = name.
Proof.
  intros Hsep. unfold join.
  destruct (startswith name "/") eqn:Hstart.
  { now apply basename_plain_name. }
  destruct (String.eqb_spec output_dir "") as [->|Hne]; cbn [orb].
  { rewrite append_nil. now apply basename_plain_name. }
  destruct (endswith output_dir "/") eqn:Hend.
  - apply endswith_split in Hend as [a ->].
    rewrite append_assoc. now apply (basename_under a name).
  - now apply basename_under.
Qed.

Lemma splitext_parts (p : string) :
  fst (splitext p) +:+ snd (splitext p) = p.
Proof.
  unfold splitext. destruct (rfind "/" p <? rfind "." p).
  - destruct (only_dots _); cbn [fst snd];
      [apply append_empty_r | apply take_drop].
  - apply append_empty_r.
Qed.

Lemma splitext_root_no_sep (name : string) :
  rfind "/" name = -1 -> rfind "/" (fst (splitext name)) = -1.
Proof.
  intros H. unfold splitext. destruct (rfind "/" name <? rfind "." name).
  - destruct (only_dots _); cbn [fst]; [exact H | now apply rfind_take].
  - exact H.
Qed.

(** An extension is empty or is a dot followed by no more dot. *)
Lemma splitext_ext_shape (p : string) :
  snd (splitext p) = ""
  \/ exists t, snd (splitext p) = String "." t /\ rfind "." t = -1.
Proof.
  unfold splitext. pose proof (rfind_lower_bound "/" p) as Hlb.
  destruct (rfind "/" p <? rfind "." p) eqn:E; [|now left].
  apply Z.ltb_lt in E.
  destruct (only_dots _); [now left|]. right. cbn [snd].
  exists (drop (Z.to_nat (rfind "." p + 1)) p). split.
  - pose proof (split_at_rfind "." p ltac:(lia)) as Hsplit.
    assert (take (Z.to_nat (rfind "." p)) p +:+ drop (Z.to_nat (rfind "." p)) p
            = take (Z.to_nat (rfind "." p)) p
              +:+ String "." (drop (Z.to_nat (rfind "." p + 1)) p)) as Htd
      by (rewrite take_drop; exact Hsplit).
    now apply (inj (String.app _)) in Htd.
  - apply rfind_after_last.
Qed.

(** The path of the lossless candidate is never the input path. *)
Lemma lossless_path_not_input (input_path output_dir : string) :
  replace (join output_dir (fst (splitext (basename input_path)) +:+ ".webp"))
          ".webp" "_lossless.webp"
  <> input_path.
Proof.
  set (name := basename input_path).
  set (stem := fst (splitext name)).
  intros E. apply (f_equal basename) in E. fold name in E.
  assert (rfind "/" stem = -1) as Hstem
    by (apply splitext_root_no_sep, basename_no_sep).
  rewrite basename_replace_webp, basename_join in E
    by (apply rfind_append_none; [exact Hstem | reflexivity]).
  rewrite replace_webp_suffix in E.
  pose proof (splitext_parts name) as Hparts. fold stem in Hparts.
  pose proof (replace_webp_length stem) as Hlen.
  destruct (splitext_ext_shape name) as [Hext | (t & Hext & Ht)];
    rewrite Hext in Hparts.
  - rewrite append_empty_r in Hparts. rewrite <- Hparts in E.
    apply (f_equal String.length) in E.
    rewrite length_append in E.
    change (String.length "_lossless.webp") with 14%nat in E. lia.
  - rewrite <- Hparts in E. apply (f_equal (rfind ".")) in E.
    rewrite (rfind_append_last "." stem t Ht) in E.
    change (replace stem ".webp" "_lossless.webp" +:+ "_lossless.webp")
      with (replace stem ".webp" "_lossless.webp"
            +:+ ("_lossless" +:+ String "." "webp")) in E.
    rewrite <- append_assoc in E.
    rewrite (rfind_append_last "." _ "webp" eq_refl) in E.
    rewrite length_append in E.
    change (String.length "_lossless") with 9%nat in E. lia.
Qed.

(** ** More on [compress_image] *)

(** The input file after a call that returns another path. *)
Lemma compress_image_input_untouched (input_path output_dir : string)
    (quality : Z) (st st' : state) (path : string) :
  compress_image input_path output_dir quality st = Returns path st' ->
  input_path <> path ->
  is_Some (fs st !! input_path)
  /\ fs st' !! input_path = fs st !! input_path.
Proof.
  rewrite compress_image_cases.
  destruct (fs st !! input_path) as [b|] eqn:Hin; [|discriminate].
  destruct (decode b) as [image|]; [|discriminate].
  destruct (String.eqb (image_format image) "GIF").
  - cbv zeta. destruct (String.eqb input_path _); [discriminate|].
    intros [= <- <-] Hne. cbn [fs set_fs].
    rewrite lookup_insert_ne by congruence. eauto.
  - cbv zeta.
    destruct (encode_webp_lossless image) as [lossless|]; [|discriminate].
    destruct (encode_webp_lossy quality image) as [lossy|]; [|discriminate].
    intros [= <- <-] Hne. cbn [fs set_fs].
    rewrite webp_files_other.
    + eauto.
    + exact Hne.
    + intros E. symmetry in E. now apply lossless_path_not_input in E.
Qed.

(** X10.  [compress_image] never changes its input file, unless the input
    already is the file it returns (a [.webp] file of the output directory
    under its own name): whenever the call returns another path, the input
    file holds what it held. *)
Theorem compress_image_keeps_input (input_path output_dir : string)
    (quality : Z) (st st' : state) (path : string) :
  compress_image input_path output_dir quality st = Returns path st' ->
  input_path <> path ->
  is_Some (fs st !! input_path)
  /\ fs st' !! input_path = fs st !! input_path.
Proof. exact (compress_image_input_untouched _ _ _ _ _ _). Qed.

(** X11.  A GIF that is not yet the file [output_dir/<name>] is copied
    there byte for byte under its own name, extension included; the call
    returns that path, the input and every other file stay as they were, and
    nothing is printed or sent.  The encoders play no part. *)
Theorem compress_image_gif_verbatim (input_path output_dir : string)
    (quality : Z) (st : state) (b : list Byte.byte) (image : Image) :
  fs st !! input_path = Some b ->
  decode b = Some image ->
  image_format image = "GIF" ->
  let output_path := join output_dir (basename input_path) in
  input_path <> output_path ->
  compress_image input_path output_dir quality st
  = Returns output_path (set_fs (<[output_path := b]> (fs st)) st)
  /\ basename output_path = basename input_path
  /\ (output_dir <> "" -> endswith output_dir "/" = false ->
      output_path = output_dir +:+ "/" +:+ basename input_path)
  /\ <[output_path := b]> (fs st) !! output_path = Some b
  /\ <[output_path := b]> (fs st) !! input_path = Some b.
Proof.
  intros Hin Hdec Hfmt output_path Hne.
  rewrite (compress_image_gif_run _ _ _ _ _ _ Hin Hdec Hfmt).
  fold output_path. apply String.eqb_neq in Hne as Hneb. rewrite Hneb.
  split; [reflexivity|].
  split; [apply basename_join, basename_no_sep|].
  split; [intros; apply join_under; [apply basename_relative | assumption..]|].
  split; [apply lookup_insert_eq|].
  now rewrite lookup_insert_ne by congruence.
Qed.

(** X12.  When [compress_image] raises anything but an encoder error, it
    has changed nothing: the input was missing ([FileNotFoundError]), was no
    image ([UnidentifiedImageError]), or was a GIF already in place
    ([SameFileError]), and the state is the one the call started in. *)
Theorem compress_image_fails_clean (input_path output_dir : string)
    (quality : Z) (st st' : state) (e : exn) :
  compress_image input_path output_dir quality st = Raises e st' ->
  e <> EncoderError ->
  st' = st
  /\ ((e = FileNotFoundError input_path /\ fs st !! input_path = None)
      \/ (e = UnidentifiedImageError input_path
          /\ exists b, fs st !! input_path = Some b /\ decode b = None)
      \/ (e = SameFileError input_path input_path
          /\ input_path = join output_dir (basename input_path))).
Proof.
  rewrite compress_image_cases.
  destruct (fs st !! input_path) as [b|] eqn:Hin.
  2:{ intros [= <- <-] _. auto. }
  destruct (decode b) as [image|] eqn:Hdec.
  2:{ intros [= <- <-] _. split; [reflexivity|]. right. left. eauto. }
  destruct (String.eqb (image_format image) "GIF").
  - cbv zeta.
    destruct (String.eqb_spec input_path
                (join output_dir (basename input_path))) as [Heq|];
      [|discriminate].
    intros [= <- <-] _. split; [reflexivity|]. right. right.
    split; [now rewrite <- Heq | exact Heq].
  - cbv zeta.
    destruct (encode_webp_lossless image) as [lossless|].
    + destruct (encode_webp_lossy quality image); [discriminate|].
      intros [= <- _] H. now destruct H.
    + intros [= <- _] H. now destruct H.
Qed.

(** A file name made of a stem and a last extension. *)
Lemma splitext_stem_ext (stem ext : string) :
  rfind "/" stem = -1 -> only_dots stem = false ->
  rfind "/" ext = -1 -> rfind "." ext = -1 ->
  splitext (stem +:+ "." +:+ ext) = (stem, "." +:+ ext).
Proof.
  intros Hs Hdots He Hd. unfold splitext.
  change (stem +:+ "." +:+ ext) with (stem +:+ String "." ext).
  rewrite (rfind_append_last "." stem ext Hd).
  assert (rfind "/" (stem +:+ String "." ext) = -1) as ->.
  { apply rfind_append_none; [exact Hs|].
    change (String "." ext) with ("." +:+ ext).
    now apply rfind_append_none. }
  assert ((-1 <? Z.of_nat (String.length stem)) = true) as ->
    by (apply Z.ltb_lt; lia).
  replace (Z.to_nat (Z.of_nat (String.length stem) - (-1 + 1)))
    with (String.length stem) by lia.
  replace (Z.to_nat (-1 + 1)) with 0%nat by lia.
  rewrite Nat2Z.id. cbn [drop].
  rewrite take_append, Hdots.
  now rewrite drop_append.
Qed.

(** X13.  The output name keeps the stem of the input name and nothing
    else: for an input whose file name is [<stem>.<ext>], with no dot in
    [<ext>], and that is an image other than a GIF, [compress_image]
    returns [output_dir/<stem>.webp], whatever the directory of the input
    and whatever [<ext>].  Two inputs with the same stem are compressed to
    the same path. *)
Theorem compress_image_output_name (input_path stem ext output_dir : string)
    (quality : Z) (st : state) (b lossless lossy : list Byte.byte)
    (image : Image) :
  basename input_path = stem +:+ "." +:+ ext ->
  only_dots stem = false ->
  rfind "." ext = -1 ->
  fs st !! input_path = Some b ->
  decode b = Some image ->
  image_format image <> "GIF" ->
  encode_webp_lossless image = Some lossless ->
  encode_webp_lossy quality image = Some lossy ->
  exists st',
    compress_image input_path output_dir quality st
    = Returns (join output_dir (stem +:+ ".webp")) st'
    /\ basename (join output_dir (stem +:+ ".webp")) = stem +:+ ".webp".
Proof.
  intros Hbase Hdots Hd Hin Hdec Hfmt Hll Hly.
  pose proof (basename_no_sep input_path) as Hname. rewrite Hbase in Hname.
  apply rfind_append_inv in Hname as [Hs Hname].
  apply rfind_append_inv in Hname as [_ He].
  eexists. split.
  - rewrite (compress_image_webp_run _ _ _ _ _ _ _ _ Hin Hdec Hfmt Hll Hly).
    rewrite Hbase, (splitext_stem_ext stem ext Hs Hdots He Hd). reflexivity.
  - apply basename_join. now apply rfind_append_none.
Qed.

(** ** More on the argument loop *)

(** The second half of a pass, forwards: each step succeeds, and this is the
    state at the end. *)
Lemma process_run (base_dir img_path path : string) (st st1 st2 : state)
    (token : pyval) (body : list Byte.byte) (r : response)
    (info : gmap string pyval) (id : string) :
  compress_image img_path "temp" 80 st = Returns path st1 ->
  get_access_token st1 = Returns token st2 ->
  fs st2 !! path = Some body ->
  remote (net_log st2) (upload_request (base_dir +:+ basename path) token body)
  = Some r ->
  json r = Some info ->
  info !! "id" = Some (PStr id) ->
  process base_dir img_path st
  = Returns Continue
      (State (delete path (fs st2))
             (stdout st2 ++ [img_url_base +:+ lower id])
             (net_log st2
              ++ [upload_request (base_dir +:+ basename path) token body])
             (clock_reads st2) (config st2)).
Proof.
  intros Hc Htok Hfile Hrem Hjson Hid. unfold process.
  rewrite (bind_Returns _ _ _ _ _ Hc). cbv zeta.
  erewrite bind_Returns; cycle 1.
  { eapply upload_by_path_run; eassumption. }
  unfold getitem, py_lower, print, remove, bind, ret.
  rewrite Hid. cbn [fs]. now rewrite Hfile.
Qed.

Lemma acquire_local (img_path : string) (st : state) :
  startswith img_path "http" = false ->
  acquire img_path st = Returns (Some img_path) st.
Proof. intros H. unfold acquire. now rewrite H. Qed.

(** The path that [compress_image] returns, by the kind of image. *)
Lemma compress_image_returned_path (input_path output_dir : string)
    (quality : Z) (st st' : state) (path : string) :
  compress_image input_path output_dir quality st = Returns path st' ->
  (path = join output_dir (basename input_path) /\ input_path <> path)
  \/ path = join output_dir (fst (splitext (basename input_path)) +:+ ".webp").
Proof.
  rewrite compress_image_cases.
  destruct (fs st !! input_path) as [b|]; [|discriminate].
  destruct (decode b) as [image|]; [|discriminate].
  destruct (String.eqb (image_format image) "GIF").
  - cbv zeta.
    destruct (String.eqb_spec input_path
                (join output_dir (basename input_path))); [discriminate|].
    intros [= <- _]. now left.
  - cbv zeta.
    destruct (encode_webp_lossless image); [|discriminate].
    destruct (encode_webp_lossy quality image); [|discriminate].
    intros [= <- _]. now right.
Qed.

(** X14.  What a pass over a local image does to the image file itself.
    The file is left as it was, unless it is the file
    [temp/<stem>.webp] that its own compression writes: then the compressed
    bytes replace it, and line 155 removes it. *)
Theorem local_pass_and_the_image (base_dir img_path : string)
    (st st' : state) :
  loop_body base_dir img_path st = Returns Continue st' ->
  startswith img_path "http" = false ->
  img_path <> "config.yaml" ->
  let own_output :=
    "temp/" +:+ fst (splitext (basename img_path)) +:+ ".webp" in
  (img_path <> own_output ->
   is_Some (fs st !! img_path) /\ fs st' !! img_path = fs st !! img_path)
  /\ (img_path = own_output -> fs st' !! img_path = None).
Proof.
  intros H Hlocal Hcfg own_output.
  rewrite loop_body_halves, (bind_Returns _ _ _ _ _ (acquire_local _ _ Hlocal))
    in H.
  apply process_returns in H
    as (path & st1 & st2 & token & body & r & info & id
        & Hc & Htok & _ & _ & _ & _ & _ & ->).
  assert (join "temp" (fst (splitext (basename img_path)) +:+ ".webp")
          = own_output) as Hown
    by (apply temp_join, webp_name_relative).
  pose proof (compress_image_returned_path _ _ _ _ _ _ Hc) as Hpath.
  rewrite Hown in Hpath.
  apply get_access_token_returns in Htok as (_ & Hfs2 & _).
  cbn [fs]. split.
  - intros Hne.
    assert (img_path <> path) as Hne' by (destruct Hpath as [[_ ?] | ->]; auto).
    destruct (compress_image_input_untouched _ _ _ _ _ _ Hc Hne') as [Hsome Hkeep].
    split; [exact Hsome|].
    rewrite lookup_delete_ne by congruence.
    now rewrite Hfs2, Hkeep.
  - intros Heq. destruct Hpath as [[Hp Hne] | ->].
    + exfalso. apply Hne. rewrite Hp, Heq. unfold own_output.
      rewrite (basename_temp (_ +:+ ".webp")).
      * symmetry. apply temp_join. apply webp_name_relative.
      * apply rfind_append_none; [|reflexivity].
        apply splitext_root_no_sep, basename_no_sep.
    + rewrite Heq. apply lookup_delete_eq.
Qed.

(** X15.  A pass over a local image that is no GIF: it is compressed to
    [temp/<stem>.webp], the smaller candidate is uploaded under the name
    [<stem>.webp] in the directory of the drive, one line is printed, and
    the compressed file is removed; the lossless intermediate is gone too,
    and every other file is as it was (the configuration file apart, which
    a refresh rewrites): so is the image itself, which is never the
    intermediate, unless it is [temp/<stem>.webp]. *)
Theorem local_image_pass (base_dir img_path : string) (st st2 : state)
    (b lossless lossy : list Byte.byte) (image : Image) (token : pyval)
    (r : response) (info : gmap string pyval) (id : string) :
  startswith img_path "http" = false ->
  fs st !! img_path = Some b ->
  decode b = Some image ->
  image_format image <> "GIF" ->
  encode_webp_lossless image = Some lossless ->
  encode_webp_lossy 80 image = Some lossy ->
  let stem := fst (splitext (basename img_path)) in
  let output_path := "temp/" +:+ stem +:+ ".webp" in
  let lossless_output_path := replace output_path ".webp" "_lossless.webp" in
  let kept := if Z.of_nat (length lossless) <? Z.of_nat (length lossy)
              then lossless else lossy in
  get_access_token
    (set_fs (webp_files (fs st) output_path lossless_output_path
               lossless lossy) st)
  = Returns token st2 ->
  let req := upload_request (base_dir +:+ stem +:+ ".webp") token kept in
  remote (net_log st2) req = Some r ->
  json r = Some info ->
  info !! "id" = Some (PStr id) ->
  exists st',
    loop_body base_dir img_path st = Returns Continue st'
    /\ stdout st' = stdout st ++ [img_url_base +:+ lower id]
    /\ net_log st' = net_log st2 ++ [req]
    /\ fs st' !! output_path = None
    /\ fs st' !! lossless_output_path = None
    /\ (forall p, p <> output_path -> p <> lossless_output_path ->
                  p <> "config.yaml" -> fs st' !! p = fs st !! p)
    /\ lossless_output_path <> img_path.
Proof.
  intros Hlocal Hin Hdec Hfmt Hll Hly
    stem output_path lossless_output_path kept Htok req Hrem Hjson Hid.
  assert (join "temp" (stem +:+ ".webp") = output_path) as Hjoin
    by (apply temp_join, webp_name_relative).
  assert (lossless_output_path <> output_path) as Hne.
  { unfold lossless_output_path. rewrite <- Hjoin. apply lossless_path_ne. }
  assert (basename output_path = stem +:+ ".webp") as Hbase.
  { apply basename_temp. apply rfind_append_none; [|reflexivity].
    apply splitext_root_no_sep, basename_no_sep. }
  pose proof (compress_image_webp_run _ "temp" _ _ _ _ _ _
                Hin Hdec Hfmt Hll Hly) as Hcomp.
  cbv zeta in Hcomp. fold stem in Hcomp. rewrite Hjoin in Hcomp.
  fold lossless_output_path in Hcomp.
  pose proof (get_access_token_returns _ _ _ Htok) as (Hout2 & Hfs2 & _).
  cbn [stdout fs set_fs] in Hout2, Hfs2.
  assert (fs st2 !! output_path = Some kept) as Hkept.
  { rewrite Hfs2 by apply temp_not_config. now apply webp_files_output. }
  eexists. split.
  { rewrite loop_body_halves,
      (bind_Returns _ _ _ _ _ (acquire_local _ _ Hlocal)).
    eapply process_run; [exact Hcomp | exact Htok | exact Hkept | | exact Hjson
                        | exact Hid].
    rewrite Hbase. exact Hrem. }
  cbn [stdout net_log fs].
  split; [now rewrite Hout2|].
  split; [now rewrite Hbase|].
  split; [apply lookup_delete_eq|].
  split.
  { rewrite lookup_delete_ne by congruence. rewrite Hfs2.
    - now apply webp_files_lossless.
    - unfold lossless_output_path, output_path.
      rewrite replace_under_temp. apply temp_not_config. }
  split.
  { intros p H1 H2 H3. rewrite lookup_delete_ne by congruence.
    rewrite Hfs2 by exact H3. now apply webp_files_other. }
  unfold lossless_output_path. rewrite <- Hjoin.
  apply lossless_path_not_input.
Qed.

(** X16.  A pass over a local GIF that is not the file [temp/<name>]: it is
    copied to [temp/<name>], the very bytes of the file are uploaded under
    its own name, one line is printed, and the copy is removed; every other
    file, the GIF itself included, is as it was (the configuration file
    apart). *)
Theorem local_gif_pass (base_dir img_path : string) (st st2 : state)
    (b : list Byte.byte) (image : Image) (token : pyval)
    (r : response) (info : gmap string pyval) (id : string) :
  startswith img_path "http" = false ->
  fs st !! img_path = Some b ->
  decode b = Some image ->
  image_format image = "GIF" ->
  let copy := "temp/" +:+ basename img_path in
  img_path <> copy ->
  get_access_token (set_fs (<[copy := b]> (fs st)) st) = Returns token st2 ->
  let req := upload_request (base_dir +:+ basename img_path) token b in
  remote (net_log st2) req = Some r ->
  json r = Some info ->
  info !! "id" = Some (PStr id) ->
  exists st',
    loop_body base_dir img_path st = Returns Continue st'
    /\ stdout st' = stdout st ++ [img_url_base +:+ lower id]
    /\ net_log st' = net_log st2 ++ [req]
    /\ fs st' !! copy = None
    /\ (forall p, p <> copy -> p <> "config.yaml" ->
                  fs st' !! p = fs st !! p).
Proof.
  intros Hlocal Hin Hdec Hfmt copy Hne Htok req Hrem Hjson Hid.
  assert (join "temp" (basename img_path) = copy) as Hjoin
    by (apply temp_join, basename_relative).
  assert (basename copy = basename img_path) as Hbase
    by (apply basename_temp, basename_no_sep).
  pose proof (compress_image_gif_run _ "temp" 80 _ _ _ Hin Hdec Hfmt) as Hcomp.
  cbv zeta in Hcomp. rewrite Hjoin in Hcomp.
  apply String.eqb_neq in Hne as Hneb. rewrite Hneb in Hcomp.
  pose proof (get_access_token_returns _ _ _ Htok) as (Hout2 & Hfs2 & _).
  cbn [stdout fs set_fs] in Hout2, Hfs2.
  assert (fs st2 !! copy = Some b) as Hcopy.
  { rewrite Hfs2 by apply temp_not_config. apply lookup_insert_eq. }
  eexists. split.
  { rewrite loop_body_halves,
      (bind_Returns _ _ _ _ _ (acquire_local _ _ Hlocal)).
    eapply process_run; [exact Hcomp | exact Htok | exact Hcopy | | exact Hjson
                        | exact Hid].
    rewrite Hbase. exact Hrem. }
  cbn [stdout net_log fs].
  split; [now rewrite Hout2|].
  split; [now rewrite Hbase|].
  split; [apply lookup_delete_eq|].
  intros p H1 H2. rewrite lookup_delete_ne by congruence.
  rewrite Hfs2 by exact H2. now rewrite lookup_insert_ne by congruence.
Qed.

Lemma upload_calls_app (l1 l2 : list request) :
  upload_calls (l1 ++ l2) = (upload_calls l1 + upload_calls l2)%nat.
Proof. unfold upload_calls. now rewrite List.filter_app, length_app. Qed.

(** One pass that returns: one line, and one upload unless the loop is
    left. *)
Lemma loop_body_one_line (base_dir img_path : string) (st st' : state)
    (f : flow) :
  loop_body base_dir img_path st = Returns f st' ->
  exists line,
    stdout st' = stdout st ++ [line]
    /\ match f with
       | Continue =>
           startswith line img_url_base = true
           /\ upload_calls (net_log st') = S (upload_calls (net_log st))
       | Break => line = img_path /\ net_log st' = net_log st
       end.
Proof.
  rewrite loop_body_halves. intros H.
  apply bind_inv in H as ([local|] & st0 & Ha & H).
  - assert (stdout st0 = stdout st
            /\ upload_calls (net_log st0) = upload_calls (net_log st))
      as [Hout0 Hup0].
    { apply acquire_returns in Ha
        as [(_ & _ & ->) | (_ & _ & _ & r0 & _ & ->)]; [now split|].
      cbn [downloaded stdout net_log]. split; [reflexivity|].
      rewrite upload_calls_app. cbn. lia. }
    apply process_returns in H
      as (path & st1 & st2 & token & body & r & info & id
          & Hc & Htok & _ & _ & _ & _ & -> & ->).
    apply compress_image_returns in Hc as (Hout1 & Hlog1 & _).
    pose proof (get_access_token_outcome st1) as (_ & _ & _ & Hup2).
    rewrite Htok in Hup2. cbn [state_of] in Hup2.
    apply get_access_token_returns in Htok as (Hout2 & _).
    exists (img_url_base +:+ lower id). cbn [stdout net_log].
    split; [now rewrite Hout2, Hout1, Hout0|].
    split; [apply prefix_append|].
    rewrite upload_calls_app, Hup2, Hlog1, Hup0. cbn. lia.
  - apply acquire_break in Ha as (_ & _ & ->).
    unfold ret in H. injection H as <- <-.
    exists img_path. now cbn.
Qed.

(** The lines and uploads of a run of the loop that returns. *)
Lemma for_each_lines (base_dir : string)
    (args : list string) (st st' : state) (f : flow) :
  for_each base_dir args st = Returns f st' ->
  exists lines,
    stdout st' = stdout st ++ lines
    /\ match f with
       | Continue =>
           length lines = length args
           /\ Forall (fun line => startswith line img_url_base = true) lines
           /\ upload_calls (net_log st')
              = (upload_calls (net_log st) + length args)%nat
       | Break =>
           (1 <= length lines <= length args)%nat
           /\ (upload_calls (net_log st') + 1
               = upload_calls (net_log st) + length lines)%nat
       end.
Proof.
  revert st. induction args as [|a args IH]; intros st H.
  - unfold for_each, ret in H. injection H as <- <-.
    exists []. rewrite app_nil_r. cbn. repeat split; [constructor | lia].
  - cbn [for_each] in H.
    apply bind_inv in H as (f0 & st0 & Hbody & H).
    apply loop_body_one_line in Hbody as (line & Hout0 & Hf0).
    destruct f0.
    + destruct Hf0 as [Hline Hup0].
      apply IH in H as (lines & Hout & Hf).
      exists (line :: lines).
      split; [rewrite Hout, Hout0, <- app_assoc; reflexivity|].
      destruct f; cbn [length].
      * destruct Hf as (Hlen & Hall & Hup).
        split; [lia|]. split; [now constructor | lia].
      * destruct Hf as (Hlen & Hup). split; lia.
    + unfold ret in H. injection H as <- <-.
      destruct Hf0 as [-> Hlog].
      exists [a]. split; [exact Hout0|]. cbn [length]. rewrite Hlog.
      split; lia.
Qed.

(** X17.  A run of the loop that returns has printed one line for every
    argument it went through.  When it was not left by [break], that is one
    line per argument, each of them the base URL followed by an id, and as
    many uploads as arguments.  When it was left by [break], the lines are
    at most as many as the arguments, and all but the last stand for an
    upload. *)
Theorem for_each_one_line_per_argument (base_dir : string)
    (args : list string) (st st' : state) (f : flow) :
  for_each base_dir args st = Returns f st' ->
  exists lines,
    stdout st' = stdout st ++ lines
    /\ match f with
       | Continue =>
           length lines = length args
           /\ Forall (fun line => startswith line img_url_base = true) lines
           /\ upload_calls (net_log st')
              = (upload_calls (net_log st) + length args)%nat
       | Break =>
           (1 <= length lines <= length args)%nat
           /\ (upload_calls (net_log st') + 1
               = upload_calls (net_log st) + length lines)%nat
       end.
Proof. exact (for_each_lines base_dir args st st' f). Qed.

(** X18.  The file for a download is opened before the request is made
    (lines 147-148): when the download fails, the pass raises with an empty
    file [temp/<md5(url)>] left behind; nothing is printed. *)
Theorem failed_download_leaves_empty_file (base_dir img_url : string)
    (st : state) :
  startswith img_url "http" = true ->
  already_hosted img_url = false ->
  remote (net_log st) (Get img_url) = None ->
  let local := "temp/" +:+ basename (md5_hexdigest img_url) in
  loop_body base_dir img_url st
  = Raises ConnectionError
      (State (<[local := []]> (fs st)) (stdout st)
             (net_log st ++ [Get img_url]) (clock_reads st) (config st)).
Proof.
  intros Hhttp Hhost Hget local.
  rewrite loop_body_halves. apply bind_Raises.
  unfold acquire. rewrite Hhttp, Hhost. fold local.
  unfold write_file, http, bind, ret.
  cbn [net_log set_fs fs stdout clock_reads config]. now rewrite Hget.
Qed.

(** X19.  There is no cleanup on a failed upload: when the answer of the
    drive holds no [id] that is a string (an error document, say), the pass
    raises at line 152 or 153, having printed nothing, and the compressed
    file is still in [temp]. *)
Theorem upload_without_id_leaves_file (base_dir img_path local path : string)
    (st st0 st1 st3 : state) (info : gmap string pyval) :
  acquire img_path st = Returns (Some local) st0 ->
  compress_image local "temp" 80 st0 = Returns path st1 ->
  upload_by_path (base_dir +:+ basename path) path st1 = Returns info st3 ->
  (forall id, info !! "id" <> Some (PStr id)) ->
  exists e,
    loop_body base_dir img_path st = Raises e st3
    /\ (e = KeyError "id" \/ e = AttributeError)
    /\ stdout st3 = stdout st
    /\ is_Some (fs st3 !! path).
Proof.
  intros Ha Hc Hu Hid.
  assert (exists e, loop_body base_dir img_path st = Raises e st3
                    /\ (e = KeyError "id" \/ e = AttributeError)) as (e & Hrun & He).
  { rewrite loop_body_halves, (bind_Returns _ _ _ _ _ Ha). unfold process.
    rewrite (bind_Returns _ _ _ _ _ Hc). cbv zeta.
    rewrite (bind_Returns _ _ _ _ _ Hu).
    unfold getitem, py_lower, bind, ret, raise.
    destruct (info !! "id") as [[id| |]|] eqn:E; eauto.
    now destruct (Hid id). }
  exists e. split; [exact Hrun|]. split; [exact He|].
  assert (stdout st0 = stdout st) as Hout0.
  { apply acquire_returns in Ha
      as [(_ & _ & ->) | (_ & _ & _ & r0 & _ & ->)]; reflexivity. }
  pose proof (compress_image_temp_in_sync _ _ _ _ _ Hc) as (Hpath & _).
  apply compress_image_returns in Hc as (Hout1 & _ & _ & _ & Hsome & _).
  apply upload_by_path_returns in Hu
    as (st2 & token & body & r & Htok & Hfile & _ & _ & ->).
  apply get_access_token_returns in Htok as (Hout2 & Hfs2 & _).
  cbn [stdout fs]. split; [now rewrite Hout2, Hout1, Hout0|].
  now rewrite Hfs2.
Qed.

(** X20.  A local argument that is no file, or a file that is no image,
    ends the run at [Image.open] (line 28): the pass raises
    [FileNotFoundError] or [UnidentifiedImageError] in the state it started
    in; nothing is written, sent or printed. *)
Theorem local_pass_not_an_image (base_dir img_path : string) (st : state) :
  startswith img_path "http" = false ->
  (fs st !! img_path = None ->
   loop_body base_dir img_path st = Raises (FileNotFoundError img_path) st)
  /\ (forall b, fs st !! img_path = Some b -> decode b = None ->
                loop_body base_dir img_path st
                = Raises (UnidentifiedImageError img_path) st).
Proof.
  intros Hlocal. split.
  - intros Hin.
    rewrite loop_body_halves,
      (bind_Returns _ _ _ _ _ (acquire_local _ _ Hlocal)).
    unfold process. apply bind_Raises.
    rewrite compress_image_cases. now rewrite Hin.
  - intros b Hin Hdec.
    rewrite loop_body_halves,
      (bind_Returns _ _ _ _ _ (acquire_local _ _ Hlocal)).
    unfold process. apply bind_Raises.
    rewrite compress_image_cases. now rewrite Hin, Hdec.
Qed.

(** ** The directory on the drive and the start of the script *)

Lemma replace_md_match (t : string) :
  replace (".md" +:+ t) ".md" "" = replace t ".md" "".
Proof.
  pose proof (prefix_append ".md" t) as E. unfold replace.
  change (".md" +:+ t) with (String "." (String "m" (String "d" t))) in *.
  cbn [replace_from]. rewrite E. reflexivity.
Qed.

Lemma replace_md_skip (c : ascii) (s : string) :
  String.prefix ".md" (String c s) = false ->
  replace (String c s) ".md" "" = String c (replace s ".md" "").
Proof.
  intros H. unfold replace. cbn [replace_from]. now rewrite H.
Qed.

Lemma prefix_md_extend (c : ascii) (s : string) :
  String.prefix ".md" (String c s) = false ->
  String.prefix ".md" (String c (s +:+ ".md")) = false.
Proof.
  destruct s as [|a1 [|a2 s]];
    rewrite ?append_cons, ?append_nil; cbn [String.prefix];
    repeat (destruct (ascii_dec _ _) as [?|?]; try reflexivity;
            try congruence; subst).
  intros H. destruct s; discriminate H.
Qed.

(** A name without [.md] in it is left alone, and [.md] at its end is
    cut off. *)
Lemma replace_md_title (title : string) :
  contains ".md" title = false ->
  replace title ".md" "" = title
  /\ replace (title +:+ ".md") ".md" "" = title.
Proof.
  induction title as [|c t IH]; intros H.
  - split; [reflexivity|]. rewrite append_nil.
    change ".md" with (".md" +:+ "") at 1. now rewrite replace_md_match.
  - cbn [contains] in H. apply orb_false_iff in H as [Hc Ht].
    destruct (IH Ht) as [IH1 IH2]. split.
    + now rewrite replace_md_skip, IH1.
    + rewrite append_cons, replace_md_skip by now apply prefix_md_extend.
      now rewrite IH2.
Qed.

(** X21.  The directory on the drive for an article (lines 127-131): the
    date of the article, a dash, and the file name of the article with
    [.md] cut off at its end; a file name without [.md] is taken whole.
    The directory of the article plays no part. *)
Theorem host_img_base_dir_of_article (file ymd title : string) (st : state) :
  file <> "" ->
  article_date file = Some ymd ->
  contains ".md" title = false ->
  basename file = title +:+ ".md" \/ basename file = title ->
  host_img_base_dir (Some file) st
  = Returns ("host/blog/post/" +:+ ymd +:+ "-" +:+ title +:+ "/") st.
Proof.
  intros Hne Hdate Htitle Hbase. unfold host_img_base_dir.
  apply String.eqb_neq in Hne. rewrite Hne, Hdate.
  destruct (replace_md_title title Htitle) as [H1 H2].
  destruct Hbase as [-> | ->]; now rewrite ?H1, ?H2.
Qed.



End Program.

(** ** The theorems at work in the sample world *)

Module SampleRuns.
Import PyStr PosixPath Os Sample.

Abbreviation compress_image_in_sample :=
  (compress_image (list Byte.byte) decode image_format
     encode_webp_lossless encode_webp_lossy).

Abbreviation refresh_in_sample :=
  (refresh_access_token yaml_safe_dump clock remote).

Abbreviation get_access_token_in_sample :=
  (get_access_token yaml_safe_dump clock remote).

Abbreviation loop_body_in_sample :=
  (loop_body (list Byte.byte) decode image_format encode_webp_lossless
     encode_webp_lossy md5_hexdigest yaml_safe_dump clock remote).

Abbreviation for_each_in_sample :=
  (for_each (list Byte.byte) decode image_format encode_webp_lossless
     encode_webp_lossy md5_hexdigest yaml_safe_dump clock remote).

(** [photo.png] has five bytes: six in the lossless encoding, five in the
    lossy one at quality 80, which is kept. *)
Lemma compress_image_keeps_smaller_witness :
  exists st' kept,
    compress_image_in_sample "photo.png" "temp" 80 (world 0)
    = Returns "temp/photo.webp" st'
    /\ fs st' !! "temp/photo.webp" = Some kept
    /\ (length kept <= 5)%nat
    /\ fs st' !! "temp/photo_lossless.webp" = None.
Proof.
  destruct (compress_image_keeps_smaller (list Byte.byte) decode image_format
              encode_webp_lossless encode_webp_lossy
              "photo.png" "temp" 80 (world 0) png5
              (Byte.x4c :: png5) (repeat Byte.x59 2 ++ firstn 3 png5) png5)
    as (st' & kept & Hrun & _ & Hkept & _ & Hlen & _ & Hgone & _ & _).
  - vm_compute. reflexivity.
  - reflexivity.
  - discriminate.
  - reflexivity.
  - reflexivity.
  - exists st', kept. repeat split.
    + exact Hrun.
    + exact Hkept.
    + exact Hlen.
    + exact Hgone.
Defined.

(** [tie.png] has four bytes: five in both encodings, and the lossy one
    stays. *)
Lemma compress_image_tie_keeps_lossy_witness :
  exists st',
    compress_image_in_sample "tie.png" "temp" 80 (world 0)
    = Returns "temp/tie.webp" st'
    /\ fs st' !! "temp/tie.webp"
       = Some [Byte.x59; Byte.x59; Byte.x89; Byte.x50; Byte.x4e]
    /\ fs st' !! "temp/tie_lossless.webp" = None.
Proof.
  destruct (compress_image_tie_keeps_lossy (list Byte.byte) decode image_format
              encode_webp_lossless encode_webp_lossy
              "tie.png" "temp" 80 (world 0) png4
              (Byte.x4c :: png4) (repeat Byte.x59 2 ++ firstn 3 png4) png4)
    as (st' & Hrun & Hgone & Htie & _).
  - vm_compute. reflexivity.
  - reflexivity.
  - discriminate.
  - reflexivity.
  - reflexivity.
  - exists st'. repeat split.
    + exact Hrun.
    + exact (Htie eq_refl).
    + exact Hgone.
Defined.

(** The state a call leaves behind. *)
Abbreviation state_after r :=
  (match r with Returns _ s => s | Raises _ s => s end).

(** Running [compress_image] again, in the state the first run has left,
    has the same outcome. *)
Lemma compress_image_deterministic_witness :
  same_outcome
    (compress_image_in_sample "photo.png" "temp" 80 (world 0))
    (compress_image_in_sample "photo.png" "temp" 80
       (state_after (compress_image_in_sample "photo.png" "temp" 80 (world 0)))).
Proof.
  apply (compress_image_deterministic (list Byte.byte) decode image_format
           encode_webp_lossless encode_webp_lossy).
  vm_compute. reflexivity.
Defined.

(** A record that expired long ago is refreshed, once; one that expires in
    an hour is used as it is. *)
Lemma get_access_token_refresh_rule_witness :
  (exists st',
     get_access_token_in_sample (world 1699990000)
     = Returns (PStr "new-access") st'
     /\ refresh_calls (net_log st') = 1%nat
     /\ in_sync yaml_safe_dump st')
  /\ (exists st',
        get_access_token_in_sample (world 1700003600)
        = Returns (PStr "old-access") st'
        /\ net_log st' = []).
Proof.
  split.
  - destruct (get_access_token_refresh_rule yaml_safe_dump clock remote
                (world 1699990000) 1699990000 eq_refl) as [Hexpired _].
    destruct (Hexpired ltac:(vm_compute; reflexivity) _
                (Response [] (Some token_answer)) token_answer
                (PStr "new-access") (PStr "new-refresh") 3600
                eq_refl eq_refl eq_refl eq_refl eq_refl eq_refl)
      as [(st' & Hrun & _ & Hcalls & _ & Hsync) _].
    exists st'. repeat split.
    + exact Hrun.
    + exact Hcalls.
    + exact Hsync.
  - destruct (get_access_token_refresh_rule yaml_safe_dump clock remote
                (world 1700003600) 1700003600 eq_refl) as [_ Hfresh].
    destruct (Hfresh ltac:(vm_compute; discriminate) (PStr "old-access") eq_refl)
      as (st' & Hrun & Hlog & _).
    exists st'. split.
    + exact Hrun.
    + exact Hlog.
Defined.

(** At [expires_at = now - 60] no refresh is sent: the rule with the
    threshold included fails. *)
Lemma threshold_record_not_refreshed :
  ~ refreshes_from_threshold yaml_safe_dump clock remote (world 1699999940).
Proof.
  intros H.
  destruct (H 1699999940 eq_refl ltac:(vm_compute; discriminate))
    as (token & st' & Hrun & Hcalls).
  rewrite (get_access_token_fresh yaml_safe_dump clock remote
             (world 1699999940) 1699999940 (PStr "old-access")
             eq_refl ltac:(vm_compute; discriminate) eq_refl) in Hrun.
  injection Hrun as _ <-. discriminate Hcalls.
Qed.

(** A refresh at the start of the sample world. *)
Lemma refresh_access_token_persists_witness :
  exists st',
    refresh_in_sample (world 0) = Returns tt st'
    /\ config st' !! "access_token" = Some (PStr "new-access")
    /\ config st' !! "refresh_token" = Some (PStr "new-refresh")
    /\ config st' !! "expires_at" = Some (PInt 1700003600)
    /\ fs st' !! "config.yaml" = Some (yaml_safe_dump (config st')).
Proof.
  destruct (refresh_access_token_persists (list Byte.byte) decode
              image_format encode_webp_lossless encode_webp_lossy
              md5_hexdigest yaml_safe_dump clock remote
              (world 0) _ (Response [] (Some token_answer)) token_answer
              (PStr "new-access") (PStr "new-refresh") 3600
              eq_refl eq_refl eq_refl eq_refl eq_refl eq_refl)
    as (st' & Hrun & Hat & Hrt & Hex & _ & Hfile & _).
  exists st'. repeat split.
  - exact Hrun.
  - exact Hat.
  - exact Hrt.
  - exact Hex.
  - exact Hfile.
Defined.

(** The loop uploads [photo.png], reaches a URL of the public domain,
    prints it and stops; [icon.png] is never looked at. *)
Lemma exempt_url_halts_batch_witness :
  exists st',
    for_each_in_sample "host/blog/post/temp/"
      ["photo.png"; "https://img.0a0.moe/od/01abc"; "icon.png"]
      (world 1700003600)
    = Returns Break st'
    /\ stdout st' = ["https://img.0a0.moe/od/01abcdef!xyz";
                     "https://img.0a0.moe/od/01abc"]
    /\ length (net_log st') = 1%nat.
Proof.
  destruct (exempt_url_halts_batch (list Byte.byte) decode image_format
              encode_webp_lossless encode_webp_lossy md5_hexdigest
              yaml_safe_dump clock remote
              "host/blog/post/temp/" ["photo.png"] ["icon.png"]
              "https://img.0a0.moe/od/01abc" (world 1700003600)
              (state_after (for_each_in_sample "host/blog/post/temp/"
                              ["photo.png"] (world 1700003600))))
    as (st' & Hrun & Hout & _ & Hlog & _).
  - vm_compute. reflexivity.
  - reflexivity.
  - reflexivity.
  - exists st'. split; [exact Hrun|]. split.
    + rewrite Hout. vm_compute. reflexivity.
    + rewrite Hlog. vm_compute. reflexivity.
Defined.

(** A URL of another host that names [img.jks.moe] in its query ends the
    loop all the same. *)
Lemma exemption_is_substring_test_witness :
  loop_body_in_sample "host/blog/post/temp/"
    "https://example.com/?src=img.jks.moe&x=1" (world 0)
  = Returns Break
      (printed "https://example.com/?src=img.jks.moe&x=1" (world 0)).
Proof.
  apply (exemption_is_substring_test (list Byte.byte) decode image_format
           encode_webp_lossless encode_webp_lossy md5_hexdigest
           yaml_safe_dump clock remote
           "host/blog/post/temp/" "https://example.com/?src=img.jks.moe&x=1"
           "https://example.com/?src=" "&x=1" "img.jks.moe" (world 0)).
  - reflexivity.
  - left. reflexivity.
  - reflexivity.
Defined.

(** The drive answers the upload of [photo.png] with the id [01ABCDEF!xyz];
    the line printed is the base URL and [01abcdef!xyz]. *)
Lemma printed_url_is_base_and_lowered_id_witness :
  let st' := state_after (loop_body_in_sample "host/blog/post/temp/"
                            "photo.png" (world 1700003600)) in
  exists log drive_file_path token body r info id,
    net_log st' = log ++ [upload_request drive_file_path token body]
    /\ remote log (upload_request drive_file_path token body) = Some r
    /\ json r = Some info
    /\ info !! "id" = Some (PStr id)
    /\ stdout st' = [] ++ ["https://img.0a0.moe/od/" +:+ lower id].
Proof.
  apply (printed_url_is_base_and_lowered_id (list Byte.byte) decode
           image_format encode_webp_lossless encode_webp_lossy
           md5_hexdigest yaml_safe_dump clock remote
           "host/blog/post/temp/" "photo.png" (world 1700003600)).
  vm_compute. reflexivity.
Defined.

(** The image at [https://example.com/a.png] is downloaded, compressed and
    uploaded; afterwards the compressed file is gone and the download is
    still in [temp]. *)
Lemma remote_image_uploaded_download_kept_witness :
  exists st',
    loop_body_in_sample "host/blog/post/temp/" "https://example.com/a.png"
      (world 1700003600)
    = Returns Continue st'
    /\ stdout st' = ["https://img.0a0.moe/od/01abcdef!xyz"]
    /\ fs st' !! "temp/8c11d92f07c76baf29e49afd2301deb2.webp" = None
    /\ fs st' !! "temp/8c11d92f07c76baf29e49afd2301deb2" = Some png5.
Proof.
  destruct (remote_image_uploaded_download_kept (list Byte.byte) decode
              image_format encode_webp_lossless encode_webp_lossy
              md5_hexdigest yaml_safe_dump clock remote
              "host/blog/post/temp/" "https://example.com/a.png"
              (world 1700003600)
              (state_after
                 (get_access_token_in_sample
                    (compressed md5_hexdigest "https://example.com/a.png"
                       (Response png5 None) (Byte.x4c :: png5)
                       (repeat Byte.x59 2 ++ firstn 3 png5)
                       (world 1700003600))))
              (Response png5 None) (Response [] (Some upload_answer))
              png5 (Byte.x4c :: png5) (repeat Byte.x59 2 ++ firstn 3 png5)
              (PStr "old-access") upload_answer "01ABCDEF!xyz")
    as (st' & Hrun & Hout & _ & _ & Hgone & _ & Hkept).
  - reflexivity.
  - reflexivity.
  - reflexivity.
  - reflexivity.
  - reflexivity.
  - discriminate.
  - reflexivity.
  - reflexivity.
  - vm_compute. reflexivity.
  - reflexivity.
  - reflexivity.
  - reflexivity.
  - exists st'. repeat split.
    + exact Hrun.
    + exact Hout.
    + exact Hgone.
    + exact Hkept.
Defined.

(** After that pass the download is not removed: the rule that both files
    are removed fails. *)
Lemma download_left_in_temp :
  ~ pass_removes_both (list Byte.byte) decode image_format
      encode_webp_lossless encode_webp_lossy md5_hexdigest yaml_safe_dump
      clock remote
      "host/blog/post/temp/" "https://example.com/a.png" (world 1700003600).
Proof.
  intros (st' & Hrun & Hdownload & _).
  assert (fs (state_after
                (loop_body_in_sample "host/blog/post/temp/"
                   "https://example.com/a.png" (world 1700003600)))
          !! ("temp/" +:+ md5_hexdigest "https://example.com/a.png")
          = Some png5) as E by (vm_compute; reflexivity).
  rewrite Hrun in E. cbv beta iota in E. rewrite E in Hdownload. discriminate.
Qed.

(** [temp/loop.gif] compressed into [temp] is a GIF copied onto itself. *)
Lemma compress_image_gif_in_place_raises_witness :
  compress_image_in_sample "temp/loop.gif" "temp" 80 (world 0)
  = Raises (SameFileError "temp/loop.gif" "temp/loop.gif") (world 0).
Proof.
  apply (compress_image_gif_in_place_raises (list Byte.byte) decode
           image_format encode_webp_lossless encode_webp_lossy
           "temp/loop.gif" "temp" 80 (world 0) gif4 gif4).
  - vm_compute. reflexivity.
  - reflexivity.
  - reflexivity.
  - reflexivity.
Defined.

(** The GIF at [https://example.com/anim.gif] is downloaded, and the pass
    ends there: nothing is uploaded, nothing printed. *)
Example remote_gif_pass :
  exists st',
    loop_body_in_sample "host/blog/post/temp/" "https://example.com/anim.gif"
      (world 1700003600)
    = Raises (SameFileError "temp/24d3181a33fd29a54865e9c1dff1974a"
                "temp/24d3181a33fd29a54865e9c1dff1974a") st'
    /\ stdout st' = []
    /\ net_log st' = [Get "https://example.com/anim.gif"]
    /\ fs st' !! "temp/24d3181a33fd29a54865e9c1dff1974a" = Some gif4.
Proof.
  eexists. split.
  - apply (remote_gif_raises (list Byte.byte) decode image_format
             encode_webp_lossless encode_webp_lossy md5_hexdigest
             yaml_safe_dump clock remote) with (image := gif4);
      reflexivity.
  - repeat split.
Qed.

(** The directory on the drive for an article and without one. *)
Example host_img_base_dir_article :
  host_img_base_dir article_date (Some "/docs/notes.md") (world 0)
  = Returns "host/blog/post/20240101-notes/" (world 0).
Proof. reflexivity. Qed.

Example host_img_base_dir_default :
  host_img_base_dir article_date (Some "") (world 0)
  = Returns "host/blog/post/temp/" (world 0)
  /\ host_img_base_dir article_date None (world 0)
     = Returns "host/blog/post/temp/" (world 0).
Proof. split; reflexivity. Qed.

(** The whole script on a local image and a remote one: the record read
    from [config.yaml] has expired, so the first upload refreshes it and the
    second uses the new token; two lines are printed. *)
Example main_run :
  match
    main (list Byte.byte) decode image_format encode_webp_lossless
      encode_webp_lossy md5_hexdigest yaml_safe_load yaml_safe_dump clock
      remote article_date None ["photo.png"; "https://example.com/a.png"]
      (world 0)
  with
  | Returns _ st' =>
      stdout st' = ["https://img.0a0.moe/od/01abcdef!xyz";
                    "https://img.0a0.moe/od/01abcdef!xyz"]
      /\ refresh_calls (net_log st') = 1%nat
      /\ length (net_log st') = 4%nat
      /\ config st' !! "expires_at" = Some (PInt 1700003601)
      /\ fs st' !! "temp/8c11d92f07c76baf29e49afd2301deb2" = Some png5
  | Raises _ _ => False
  end.
Proof. vm_compute. repeat split. Qed.

End SampleRuns.
(** ** The further theorems at work *)

Module MoreRuns.
Import PyStr PosixPath Os Sample Faults SampleRuns.

(** The sample world with another record. *)
Abbreviation world_with cfg := (State files [] [] 0 cfg).


(** The token endpoint answers with an error document. *)
Lemma refresh_access_token_rejected_witness :
  exists e st',
    refresh_access_token yaml_safe_dump clock remote_rejecting (world 0)
    = Raises e st'
    /\ config st' = record 0 /\ fs st' = files
    /\ length (net_log st') = 1%nat.
Proof.
  destruct (refresh_access_token_rejected yaml_safe_dump clock remote_rejecting
              (world 0)
              [("client_id", PStr "app");
               ("redirect_uri", PStr "http://localhost:5000/callback");
               ("client_secret", PStr "secret");
               ("refresh_token", PStr "old-refresh");
               ("grant_type", PStr "refresh_token")])
    as (e & Hrun & _).
  - vm_compute. reflexivity.
  - right. exists (Response [] (Some error_answer)). split; [reflexivity|].
    right. exists error_answer. split; reflexivity.
  - eexists e, _. split; [exact Hrun|]. repeat split.
Defined.

(** The answer has an access token and no refresh token. *)
Lemma refresh_access_token_half_done_witness :
  exists st',
    refresh_access_token yaml_safe_dump clock remote_short (world 0)
    = Raises (KeyError "refresh_token") st'
    /\ config st' !! "access_token" = Some (PStr "new-access")
    /\ config st' !! "refresh_token" = Some (PStr "old-refresh")
    /\ fs st' !! "config.yaml" = Some (yaml_safe_dump (record 0)).
Proof.
  destruct (refresh_access_token_half_done yaml_safe_dump clock remote_short
              (world 0)
              [("client_id", PStr "app");
               ("redirect_uri", PStr "http://localhost:5000/callback");
               ("client_secret", PStr "secret");
               ("refresh_token", PStr "old-refresh");
               ("grant_type", PStr "refresh_token")]
              (Response [] (Some short_answer)) short_answer
              (PStr "new-access"))
    as (st' & Hrun & Hcfg & Hfs & _).
  - vm_compute. reflexivity.
  - reflexivity.
  - reflexivity.
  - reflexivity.
  - reflexivity.
  - exists st'. split; [exact Hrun|]. rewrite Hcfg, Hfs.
    repeat split; vm_compute; reflexivity.
Defined.

(** A record without [expires_at], and one with a text for it. *)
Lemma get_access_token_bad_expiry_witness :
  get_access_token yaml_safe_dump clock remote
    (world_with (delete "expires_at" (record 0)))
  = Raises (KeyError "expires_at") (world_with (delete "expires_at" (record 0)))
  /\ exists st',
       get_access_token yaml_safe_dump clock remote
         (world_with record_with_text_expiry)
       = Raises TypeError st'
       /\ net_log st' = [].
Proof.
  split.
  - apply (get_access_token_bad_expiry yaml_safe_dump clock remote).
    vm_compute. reflexivity.
  - destruct (get_access_token_bad_expiry yaml_safe_dump clock remote
                (world_with record_with_text_expiry)) as [_ H].
    destruct (H (PStr "1700000000")) as (st' & Hrun & _ & Hlog & _).
    + vm_compute. reflexivity.
    + discriminate.
    + exists st'. split; [exact Hrun | exact Hlog].
Defined.

(** The header in the sample world, with a record that is still good. *)
Lemma generate_header_current_token_witness :
  exists token,
    config (state_after (generate_header yaml_safe_dump clock remote
                           (world 1700003600)))
      !! "access_token" = Some token
    /\ [("Authorization", "Bearer old-access");
        ("User-Agent", "Typora Image Uploader(lrhtony0@gmail.com)")]
       = [("Authorization", "Bearer " +:+ py_format token);
          ("User-Agent", "Typora Image Uploader(lrhtony0@gmail.com)")].
Proof.
  apply (generate_header_current_token yaml_safe_dump clock remote
           (world 1700003600)).
  vm_compute. reflexivity.
Defined.

(** An upload of a file that is not there, with an expired record: the
    record is refreshed, and no upload is sent. *)
Lemma upload_by_path_missing_file_witness :
  exists st',
    upload_by_path yaml_safe_dump clock remote "host/x.webp" "temp/x.webp"
      (world 0)
    = Raises (FileNotFoundError "temp/x.webp") st'
    /\ refresh_calls (net_log st') = 1%nat
    /\ upload_calls (net_log st') = 0%nat.
Proof.
  destruct (upload_by_path_missing_file yaml_safe_dump clock remote
              "host/x.webp" "temp/x.webp" (world 0)) as [_ H].
  - vm_compute. reflexivity.
  - discriminate.
  - eexists. split.
    + apply (H (PStr "new-access")
               (state_after (get_access_token yaml_safe_dump clock remote
                               (world 0)))).
      vm_compute. reflexivity.
    + split; vm_compute; reflexivity.
Defined.

(** An upload of [photo.png] as it is. *)
Lemma upload_by_path_sends_one_upload_witness :
  let st' := state_after (upload_by_path yaml_safe_dump clock remote
                            "host/photo.png" "photo.png" (world 1700003600)) in
  exists log token body r,
    net_log st' = log ++ [upload_request "host/photo.png" token body]
    /\ (log = [] \/ exists data, log = [] ++ [Post TOKEN_URL data])
    /\ files !! "photo.png" = Some body
    /\ config st' !! "access_token" = Some token
    /\ remote log (upload_request "host/photo.png" token body) = Some r
    /\ json r = Some upload_answer
    /\ upload_calls (net_log st') = 1%nat
    /\ stdout st' = []
    /\ (forall p, p <> "config.yaml" -> fs st' !! p = files !! p).
Proof.
  apply (upload_by_path_sends_one_upload yaml_safe_dump clock remote
           "host/photo.png" "photo.png" (world 1700003600)).
  - vm_compute. reflexivity.
  - discriminate.
Defined.

(** A refresh and the next call of the accessor, one second later. *)
Lemma refresh_then_accessor_witness :
  exists st1 st2,
    refresh_access_token yaml_safe_dump clock remote (world 0) = Returns tt st1
    /\ get_access_token yaml_safe_dump clock remote st1
       = Returns (PStr "new-access") st2
    /\ length (net_log st2) = 1%nat.
Proof.
  destruct (refresh_then_accessor yaml_safe_dump clock remote (world 0)
              [("client_id", PStr "app");
               ("redirect_uri", PStr "http://localhost:5000/callback");
               ("client_secret", PStr "secret");
               ("refresh_token", PStr "old-refresh");
               ("grant_type", PStr "refresh_token")]
              (Response [] (Some token_answer)) token_answer
              (PStr "new-access") (PStr "new-refresh") 3600)
    as (st1 & st2 & H1 & H2 & Hlog & _).
  - vm_compute. reflexivity.
  - reflexivity.
  - reflexivity.
  - reflexivity.
  - reflexivity.
  - reflexivity.
  - vm_compute. discriminate.
  - exists st1, st2. split; [exact H1|]. split; [exact H2|].
    rewrite Hlog. reflexivity.
Defined.

(** [photo.png] is still there after it has been compressed. *)
Lemma compress_image_keeps_input_witness :
  fs (state_after (compress_image_in_sample "photo.png" "temp" 80 (world 0)))
    !! "photo.png"
  = Some png5.
Proof.
  destruct (compress_image_keeps_input (list Byte.byte) decode image_format
              encode_webp_lossless encode_webp_lossy
              "photo.png" "temp" 80 (world 0)
              (state_after (compress_image_in_sample "photo.png" "temp" 80
                              (world 0)))
              "temp/photo.webp") as [_ H].
  - vm_compute. reflexivity.
  - discriminate.
  - rewrite H. vm_compute. reflexivity.
Defined.

(** [anim.gif] is copied to [temp/anim.gif] as it is. *)
Lemma compress_image_gif_verbatim_witness :
  compress_image_in_sample "anim.gif" "temp" 80 (world 0)
  = Returns "temp/anim.gif" (set_fs (<["temp/anim.gif" := gif4]> files) (world 0)).
Proof.
  apply (compress_image_gif_verbatim (list Byte.byte) decode image_format
           encode_webp_lossless encode_webp_lossy
           "anim.gif" "temp" 80 (world 0) gif4 gif4).
  - vm_compute. reflexivity.
  - reflexivity.
  - reflexivity.
  - discriminate.
Defined.

(** A file that is not there. *)
Lemma compress_image_fails_clean_witness :
  state_after (compress_image_in_sample "nothing.png" "temp" 80 (world 0))
  = world 0.
Proof.
  apply (compress_image_fails_clean (list Byte.byte) decode image_format
           encode_webp_lossless encode_webp_lossy
           "nothing.png" "temp" 80 (world 0) _
           (FileNotFoundError "nothing.png")).
  - vm_compute. reflexivity.
  - discriminate.
Defined.

(** [pics/cat.jpeg] goes to [temp/cat.webp]. *)
Lemma compress_image_output_name_witness :
  exists st',
    compress_image_in_sample "pics/cat.jpeg" "temp" 80
      (set_fs (<["pics/cat.jpeg" := png5]> files) (world 0))
    = Returns "temp/cat.webp" st'.
Proof.
  destruct (compress_image_output_name (list Byte.byte) decode image_format
              encode_webp_lossless encode_webp_lossy
              "pics/cat.jpeg" "cat" "jpeg" "temp" 80
              (set_fs (<["pics/cat.jpeg" := png5]> files) (world 0))
              png5 (Byte.x4c :: png5) (repeat Byte.x59 2 ++ firstn 3 png5) png5)
    as (st' & Hrun & _).
  - reflexivity.
  - reflexivity.
  - reflexivity.
  - vm_compute. reflexivity.
  - reflexivity.
  - discriminate.
  - reflexivity.
  - reflexivity.
  - exists st'. exact Hrun.
Defined.

(** After the pass over [photo.png] the file is as it was. *)
Lemma local_pass_and_the_image_witness :
  fs (state_after (loop_body_in_sample "host/blog/post/temp/" "photo.png"
                     (world 1700003600)))
    !! "photo.png"
  = files !! "photo.png".
Proof.
  destruct (local_pass_and_the_image (list Byte.byte) decode image_format
              encode_webp_lossless encode_webp_lossy md5_hexdigest
              yaml_safe_dump clock remote
              "host/blog/post/temp/" "photo.png" (world 1700003600)
              (state_after (loop_body_in_sample "host/blog/post/temp/"
                              "photo.png" (world 1700003600))))
    as [H _].
  - vm_compute. reflexivity.
  - reflexivity.
  - discriminate.
  - apply H. discriminate.
Defined.

(** The pass over [photo.png], step by step. *)
Lemma local_image_pass_witness :
  exists st',
    loop_body_in_sample "host/blog/post/temp/" "photo.png" (world 1700003600)
    = Returns Continue st'
    /\ stdout st' = ["https://img.0a0.moe/od/01abcdef!xyz"]
    /\ fs st' !! "temp/photo.webp" = None
    /\ fs st' !! "temp/photo_lossless.webp" = None
    /\ fs st' !! "photo.png" = Some png5.
Proof.
  destruct (local_image_pass (list Byte.byte) decode image_format
              encode_webp_lossless encode_webp_lossy md5_hexdigest
              yaml_safe_dump clock remote
              "host/blog/post/temp/" "photo.png" (world 1700003600)
              (state_after
                 (get_access_token_in_sample
                    (set_fs (webp_files files "temp/photo.webp"
                               "temp/photo_lossless.webp" (Byte.x4c :: png5)
                               (repeat Byte.x59 2 ++ firstn 3 png5))
                            (world 1700003600))))
              png5 (Byte.x4c :: png5) (repeat Byte.x59 2 ++ firstn 3 png5)
              png5 (PStr "old-access") (Response [] (Some upload_answer))
              upload_answer "01ABCDEF!xyz")
    as (st' & Hrun & Hout & _ & Hgone & Htmp & Hother & _).
  - reflexivity.
  - vm_compute. reflexivity.
  - reflexivity.
  - discriminate.
  - reflexivity.
  - reflexivity.
  - vm_compute. reflexivity.
  - reflexivity.
  - reflexivity.
  - reflexivity.
  - exists st'. split; [exact Hrun|]. split; [exact Hout|].
    split; [exact Hgone|]. split; [exact Htmp|].
    rewrite Hother by discriminate. vm_compute. reflexivity.
Defined.

(** The pass over [anim.gif]. *)
Lemma local_gif_pass_witness :
  exists st',
    loop_body_in_sample "host/blog/post/temp/" "anim.gif" (world 1700003600)
    = Returns Continue st'
    /\ stdout st' = ["https://img.0a0.moe/od/01abcdef!xyz"]
    /\ fs st' !! "temp/anim.gif" = None
    /\ fs st' !! "anim.gif" = Some gif4.
Proof.
  destruct (local_gif_pass (list Byte.byte) decode image_format
              encode_webp_lossless encode_webp_lossy md5_hexdigest
              yaml_safe_dump clock remote
              "host/blog/post/temp/" "anim.gif" (world 1700003600)
              (state_after
                 (get_access_token_in_sample
                    (set_fs (<["temp/anim.gif" := gif4]> files)
                            (world 1700003600))))
              gif4 gif4 (PStr "old-access") (Response [] (Some upload_answer))
              upload_answer "01ABCDEF!xyz")
    as (st' & Hrun & Hout & _ & Hgone & Hother).
  - reflexivity.
  - vm_compute. reflexivity.
  - reflexivity.
  - reflexivity.
  - discriminate.
  - vm_compute. reflexivity.
  - reflexivity.
  - reflexivity.
  - reflexivity.
  - exists st'. split; [exact Hrun|]. split; [exact Hout|].
    split; [exact Hgone|].
    rewrite Hother by discriminate. vm_compute. reflexivity.
Defined.

(** Two images, two lines, two uploads. *)
Lemma for_each_one_line_per_argument_witness :
  let st' := state_after (for_each_in_sample "host/blog/post/temp/"
                            ["photo.png"; "icon.png"] (world 1700003600)) in
  exists lines,
    stdout st' = [] ++ lines
    /\ length lines = 2%nat
    /\ Forall (fun line => startswith line img_url_base = true) lines
    /\ upload_calls (net_log st') = (0 + 2)%nat.
Proof.
  apply (for_each_one_line_per_argument (list Byte.byte) decode image_format
           encode_webp_lossless encode_webp_lossy md5_hexdigest
           yaml_safe_dump clock remote
           "host/blog/post/temp/" ["photo.png"; "icon.png"]
           (world 1700003600) _ Continue).
  vm_compute. reflexivity.
Defined.

(** No connection: the pass over a URL leaves an empty file. *)
Lemma failed_download_leaves_empty_file_witness :
  loop_body (list Byte.byte) decode image_format encode_webp_lossless
    encode_webp_lossy md5_hexdigest yaml_safe_dump clock remote_down
    "host/blog/post/temp/" "https://example.com/a.png" (world 0)
  = Raises ConnectionError
      (State (<["temp/8c11d92f07c76baf29e49afd2301deb2" := []]> files) []
             [Get "https://example.com/a.png"] 0 (record 0)).
Proof.
  apply (failed_download_leaves_empty_file (list Byte.byte) decode image_format
           encode_webp_lossless encode_webp_lossy md5_hexdigest
           yaml_safe_dump clock remote_down
           "host/blog/post/temp/" "https://example.com/a.png" (world 0)).
  - reflexivity.
  - reflexivity.
  - reflexivity.
Defined.

(** The drive answers the upload with an error document: the pass raises,
    and [temp/photo.webp] stays. *)
Lemma upload_without_id_leaves_file_witness :
  let st1 := state_after (compress_image_in_sample "photo.png" "temp" 80
                            (world 1700003600)) in
  let st3 := state_after
               (upload_by_path yaml_safe_dump clock remote_full
                  "host/blog/post/temp/photo.webp" "temp/photo.webp" st1) in
  exists e,
    loop_body (list Byte.byte) decode image_format encode_webp_lossless
      encode_webp_lossy md5_hexdigest yaml_safe_dump clock remote_full
      "host/blog/post/temp/" "photo.png" (world 1700003600)
    = Raises e st3
    /\ (e = KeyError "id" \/ e = AttributeError)
    /\ stdout st3 = []
    /\ is_Some (fs st3 !! "temp/photo.webp").
Proof.
  intros st1 st3.
  apply (upload_without_id_leaves_file (list Byte.byte) decode image_format
           encode_webp_lossless encode_webp_lossy md5_hexdigest
           yaml_safe_dump clock remote_full
           "host/blog/post/temp/" "photo.png" "photo.png" "temp/photo.webp"
           (world 1700003600) (world 1700003600) st1 st3 error_answer).
  - reflexivity.
  - vm_compute. reflexivity.
  - vm_compute. reflexivity.
  - intros id. vm_compute. discriminate.
Defined.

(** An argument that is no file, and one that is an empty file. *)
Lemma local_pass_not_an_image_witness :
  loop_body_in_sample "host/blog/post/temp/" "nothing.png" (world 0)
  = Raises (FileNotFoundError "nothing.png") (world 0)
  /\ loop_body_in_sample "host/blog/post/temp/" "empty.png"
       (set_fs (<["empty.png" := []]> files) (world 0))
     = Raises (UnidentifiedImageError "empty.png")
         (set_fs (<["empty.png" := []]> files) (world 0)).
Proof.
  split.
  - apply (local_pass_not_an_image (list Byte.byte) decode image_format
             encode_webp_lossless encode_webp_lossy md5_hexdigest
             yaml_safe_dump clock remote).
    + reflexivity.
    + vm_compute. reflexivity.
  - apply (local_pass_not_an_image (list Byte.byte) decode image_format
             encode_webp_lossless encode_webp_lossy md5_hexdigest
             yaml_safe_dump clock remote) with (b := []).
    + reflexivity.
    + vm_compute. reflexivity.
    + reflexivity.
Defined.

(** The article [/docs/notes.md], and a text file given as the article. *)
Lemma host_img_base_dir_of_article_witness :
  host_img_base_dir article_date (Some "/docs/notes.md") (world 0)
  = Returns "host/blog/post/20240101-notes/" (world 0)
  /\ host_img_base_dir article_date (Some "draft.txt") (world 0)
     = Returns "host/blog/post/20240101-draft.txt/" (world 0).
Proof.
  split.
  - apply (host_img_base_dir_of_article article_date "/docs/notes.md"
             "20240101" "notes" (world 0)).
    + discriminate.
    + reflexivity.
    + reflexivity.
    + left. reflexivity.
  - apply (host_img_base_dir_of_article article_date "draft.txt"
             "20240101" "draft.txt" (world 0)).
    + discriminate.
    + reflexivity.
    + reflexivity.
    + right. reflexivity.
Defined.



End MoreRuns.
